(** * Codecrawl: metrics engine and asynchronous job client

    A shallow embedding of
      - apps/api/src/core/tokenCount/index.ts            (TokenCounter)
      - apps/api/src/core/metrics/workers/outputMetricsWorker.ts
      - apps/api/src/core/metrics/calculateOutputMetrics.ts
      - apps/api/src/core/metrics/calculateMetrics.ts
      - the SDK client (CodecrawlApp, CodecrawlError)
    and the properties of the written specification that concern them.

    Conventions.  A JavaScript string is a [string]; one character stands
    for one UTF-16 code unit, so [String.length] is [.length] and [slice]
    cuts between code units.  JavaScript numbers that the code uses as
    integers (lengths, indices, counts, HTTP statuses) are [Z]; all of them
    stay far below 2^53, where the arithmetic of doubles is exact.
    Asynchronous results are outcomes: a promise resolves with a value or
    rejects with an error.  Calls that leave the function (the logger, the
    worker pool, HTTP requests, timers) are recorded in a trace. *)

From Stdlib Require Import ZArith Lia List String Ascii DecimalString Decimal.
From Stdlib Require DecimalZ DecimalPos.
From stdpp Require Import gmap strings list.
Import ListNotations.

Local Open Scope Z_scope.

(** ** JavaScript strings *)

Module JsString.

Definition length (s : string) : Z := Z.of_nat (String.length s).

(** [String.prototype.slice]: a negative index counts from the end, both
    indices are clamped to the string, an empty range gives the empty
    string. *)
Definition clamp (len k : Z) : Z :=
  if k <? 0 then Z.max (len + k) 0 else Z.min k len.

Definition slice (s : string) (b e : Z) : string :=
  let len := length s in
  let from := clamp len b in
  let to := clamp len e in
  substring (Z.to_nat from) (Z.to_nat (Z.max (to - from) 0)) s.

(** Concatenation of a list of strings, in order. *)
Definition join (l : list string) : string :=
  fold_right String.append EmptyString l.

(** Decimal rendering of an integer, as a template literal prints it. *)
Definition of_Z (z : Z) : string := NilZero.string_of_int (Z.to_int z).

(** A string is truthy unless it is empty. *)
Definition nonempty (s : string) : bool :=
  match s with EmptyString => false | String _ _ => true end.

(** [includes s t]: [t] occurs in [s]. *)
Definition includes (s t : string) : Prop :=
  exists pre post, s = String.append pre (String.append t post).

(** [s.startsWith(p)] and [s.includes(t)] as tests. *)
Fixpoint starts_with (s p : string) : bool :=
  match p, s with
  | EmptyString, _ => true
  | String _ _, EmptyString => false
  | String b p', String a s' => Ascii.eqb a b && starts_with s' p'
  end.

Fixpoint includesb (s t : string) : bool :=
  starts_with s t
  || match s with
     | EmptyString => false
     | String _ s' => includesb s' t
     end.

End JsString.

(** ** JavaScript values, errors and promises *)

Module Js.

(** The values that travel in response bodies and error objects. *)
#[warnings="-register-all"] Inductive Value : Type :=
| Undefined
| Null
| Bool (b : bool)
| Num (z : Z)
| Str (s : string)
| Obj (fields : list (string * Value)).

(** An object: its own properties, in insertion order. *)
Definition Object : Type := list (string * Value).

Definition truthy (v : Value) : bool :=
  match v with
  | Undefined | Null => false
  | Bool b => b
  | Num z => negb (z =? 0)
  | Str s => JsString.nonempty s
  | Obj _ => true
  end.

(** [o[k]]: the first binding of [k], [undefined] when there is none. *)
Fixpoint get (o : Object) (k : string) : Value :=
  match o with
  | [] => Undefined
  | (k', v) :: o' => if String.eqb k k' then v else get o' k
  end.

(** [k in o]. *)
Fixpoint has (o : Object) (k : string) : bool :=
  match o with
  | [] => false
  | (k', _) :: o' => if String.eqb k k' then true else has o' k
  end.

(** [v?.k]: [undefined] on anything that has no such property. *)
Definition prop (v : Value) (k : string) : Value :=
  match v with
  | Obj o => get o k
  | _ => Undefined
  end.

(** [o[k] = v] on an object. *)
Fixpoint set (o : Object) (k : string) (v : Value) : Object :=
  match o with
  | [] => [(k, v)]
  | (k', v') :: o' =>
      if String.eqb k k' then (k', v) :: o' else (k', v') :: set o' k v
  end.

(** The string a template literal substitutes for a value. *)
Definition to_string (v : Value) : string :=
  match v with
  | Undefined => "undefined"
  | Null => "null"
  | Bool true => "true"
  | Bool false => "false"
  | Num z => JsString.of_Z z
  | Str s => s
  | Obj _ => "[object Object]"
  end.

(** [a || b] and [a ?? b]. *)
Definition logical_or (a b : Value) : Value := if truthy a then a else b.
Definition coalesce (a b : Value) : Value :=
  match a with Undefined | Null => b | _ => a end.

(** A [path?: string] argument: absent, or a string. *)
Definition of_optional (p : option string) : Value :=
  match p with None => Undefined | Some s => Str s end.

(** An HTTP response as axios hands it over.  The body is an object, as
    the response interfaces of the client declare. *)
Record Response : Type := { status : Z; data : Object }.

(** What can be thrown. *)
Inductive Exn : Type :=
| CodecrawlError (message : string) (statusCode : Value) (details : Value)
| AxiosError (message : string) (response : option Response)
| TypeError (message : string)
| OtherError (message : string)
| NonError (v : Value).

(** [error instanceof Error]. *)
Definition instanceof_Error (e : Exn) : bool :=
  match e with NonError _ => false | _ => true end.

(** [error instanceof AxiosError]. *)
Definition instanceof_AxiosError (e : Exn) : bool :=
  match e with AxiosError _ _ => true | _ => false end.

(** [error.message]. *)
Definition message_of (e : Exn) : Value :=
  match e with
  | CodecrawlError m _ _ | AxiosError m _ | TypeError m | OtherError m => Str m
  | NonError v => prop v "message"
  end.

(** [String(error)] for a thrown value that is not an [Error]. *)
Definition String_of (e : Exn) : string :=
  match e with
  | CodecrawlError m _ _ => String.append "Error: " m
  | AxiosError m _ => String.append "AxiosError: " m
  | TypeError m => String.append "TypeError: " m
  | OtherError m => String.append "Error: " m
  | NonError v => to_string v
  end.

(** The message [new Error(m)] stores: none for [undefined], else the
    string of [m]. *)
Definition Error_message (m : Value) : string :=
  match m with Undefined => EmptyString | _ => to_string m end.

(** A settled promise, or the result of a call that may throw. *)
Inductive Outcome (A : Type) : Type :=
| Resolved (a : A)
| Rejected (e : Exn).
Arguments Resolved {A} a.
Arguments Rejected {A} e.

Definition is_rejected {A} (o : Outcome A) : bool :=
  match o with Rejected _ => true | Resolved _ => false end.

End Js.

(** ** Effects

    A computation runs in a world [W] (the trace of outside calls and the
    state of the collaborators) and ends with an outcome and a new world;
    [None] means that the fuel given to a loop of the model ran out before
    the code returned. *)

Module Effect.
Import Js.

Section Monad.
Context {W : Type}.

Definition M (A : Type) : Type := W -> option (Outcome A * W).

Definition ret {A} (a : A) : M A := fun w => Some (Resolved a, w).

Definition throw {A} (e : Exn) : M A := fun w => Some (Rejected e, w).

Definition out_of_fuel {A} : M A := fun _ => None.

Definition bind {A B} (m : M A) (k : A -> M B) : M B :=
  fun w =>
    match m w with
    | Some (Resolved a, w') => k a w'
    | Some (Rejected e, w') => Some (Rejected e, w')
    | None => None
    end.

(** [try { m } catch (error) { h error }]. *)
Definition try_catch {A} (m : M A) (h : Exn -> M A) : M A :=
  fun w =>
    match m w with
    | Some (Rejected e, w') => h e w'
    | r => r
    end.

(** The outcome of a call that touches nothing outside. *)
Definition lift {A} (o : Outcome A) : M A := fun w => Some (o, w).

(** [Promise.all(ms)]: every computation of the list is started, in
    order; the result is the list of their values, or a rejection when
    one of them rejects. *)
Fixpoint start_all {A} (ms : list (M A)) (w : W)
  : option (list (Outcome A) * W) :=
  match ms with
  | [] => Some ([], w)
  | m :: ms' =>
      match m w with
      | None => None
      | Some (o, w1) =>
          match start_all ms' w1 with
          | None => None
          | Some (os, w2) => Some (o :: os, w2)
          end
      end
  end.

Fixpoint await_all {A} (os : list (Outcome A)) : Outcome (list A) :=
  match os with
  | [] => Resolved []
  | Rejected e :: _ => Rejected e
  | Resolved a :: os' =>
      match await_all os' with
      | Resolved l => Resolved (a :: l)
      | Rejected e => Rejected e
      end
  end.

Definition promise_all {A} (ms : list (M A)) : M (list A) :=
  fun w =>
    match start_all ms w with
    | None => None
    | Some (os, w') => Some (await_all os, w')
    end.

(** [Promise.all([ma, mb])] for two promises of different types. *)
Definition promise_all2 {A B} (ma : M A) (mb : M B) : M (A * B) :=
  fun w =>
    match ma w with
    | None => None
    | Some (oa, w1) =>
        match mb w1 with
        | None => None
        | Some (ob, w2) =>
            Some (match oa, ob with
                  | Resolved a, Resolved b => Resolved (a, b)
                  | Rejected e, _ => Rejected e
                  | _, Rejected e => Rejected e
                  end, w2)
        end
    end.

End Monad.

Arguments M W A : clear implicits.

Declare Scope effect_scope.
Delimit Scope effect_scope with effect.
Notation "'let!' x ':=' m 'in' k" := (bind m (fun x => k))
  (at level 10, x name, m at level 100, k at level 200) : effect_scope.
Notation "'exec!' m 'in' k" := (bind m (fun _ => k))
  (at level 10, m at level 100, k at level 200) : effect_scope.

End Effect.

(** ** The metrics engine *)

Module Metrics.
Import Js Effect.
Local Open Scope effect_scope.

(** [TiktokenEncoding]: the name of a tokenization scheme. *)
Definition TiktokenEncoding : Type := string.

(** outputMetricsWorker.ts, [OutputMetricsTask]. *)
Record OutputMetricsTask : Type := {
  task_content : string;
  task_encoding : TiktokenEncoding;
  task_path : option string
}.

(** Calls that leave the engine.  [LoggerInfoTimed before after] is a
    [logger.info] whose message is [before], a measured duration, and
    [after]; the duration itself is not part of the model. *)
Inductive Event : Type :=
| LoggerInfo (msg : string)
| LoggerInfoTimed (before after : string)
| LoggerWarn (msg : string)
| LoggerError (msg : string) (error : Exn)
| ProgressCallback (msg : string)
| InitPiscina (numOfTasks : Z) (filename : string)
| PoolRun (task : OutputMetricsTask)
| TiktokenFree (name : TiktokenEncoding).

(** A world that keeps a trace. *)
Class Traced (W : Type) : Type := record : Event -> W -> W.

Definition emit {W} `{Traced W} (ev : Event) : M W unit :=
  fun w => Some (Resolved tt, record ev w).

(** *** tokenCount/index.ts *)

(** The handle [get_encoding(name)] returns.  The call is taken to
    return its handle for every name of [TiktokenEncoding]; a call that
    throws, which would make [new TokenCounter(name)] throw, is not
    modelled. *)
Record Tiktoken : Type := { tk_name : TiktokenEncoding }.

Definition get_encoding (encodingName : TiktokenEncoding) : Tiktoken :=
  {| tk_name := encodingName |}.

(** [class TokenCounter { private encoding: Tiktoken }]. *)
Record TokenCounter : Type := { tc_encoding : Tiktoken }.

Definition new_TokenCounter (encodingName : TiktokenEncoding) : TokenCounter :=
  {| tc_encoding := get_encoding encodingName |}.

(** The encoding a counter was constructed for. *)
Definition bound_encoding (c : TokenCounter) : TiktokenEncoding :=
  tk_name (tc_encoding c).

Section Tokenizer.

(** The tokenizer of the tiktoken library: [encode name content] is what
    [get_encoding(name).encode(content)] does, the list of tokens or a
    thrown error. *)
Variable encode : TiktokenEncoding -> string -> Outcome (list Z).

Definition countTokens {W} `{Traced W}
    (this : TokenCounter) (content : string) (filePath : option string)
  : M W Z :=
  try_catch
    (let! tokens := lift (encode (bound_encoding this) content) in
     ret (Z.of_nat (List.length tokens)))
    (fun error =>
       let message :=
         if instanceof_Error error
         then to_string (message_of error)
         else String_of error in
       exec! (if truthy (of_optional filePath)
              then emit (LoggerWarn
                     ("Failed to count tokens. path: "
                      +:+ to_string (of_optional filePath)
                      +:+ ", error: " +:+ message))
              else emit (LoggerWarn
                     ("Failed to count tokens. error: " +:+ message))) in
       ret 0).

(** The text of the warning that a failed count logs. *)
Definition error_text (error : Exn) : string :=
  if instanceof_Error error
  then to_string (message_of error)
  else String_of error.

Definition failure_warning (filePath : option string) (error : Exn) : string :=
  match filePath with
  | Some label =>
      if JsString.nonempty label
      then "Failed to count tokens. path: " +:+ label
           +:+ ", error: " +:+ error_text error
      else "Failed to count tokens. error: " +:+ error_text error
  | None => "Failed to count tokens. error: " +:+ error_text error
  end.

(** The count that a counter of the encoding [name] gives for a content:
    the number of tokens, or 0 when the tokenizer throws. *)
Definition token_count (name : TiktokenEncoding) (content : string) : Z :=
  match encode name content with
  | Resolved tokens => Z.of_nat (List.length tokens)
  | Rejected _ => 0
  end.

Definition free {W} `{Traced W} (this : TokenCounter) : M W unit :=
  emit (TiktokenFree (bound_encoding this)).

(** *** metrics/workers/outputMetricsWorker.ts *)

(** The state of one worker: the module variable [tokenCounter] and the
    worker's log. *)
Record Worker : Type := {
  tokenCounter : option TokenCounter;
  worker_log : list Event
}.

#[export] Instance Worker_traced : Traced Worker :=
  fun ev w =>
    {| tokenCounter := tokenCounter w; worker_log := worker_log w ++ [ev] |}.

Definition fresh_worker : Worker :=
  {| tokenCounter := None; worker_log := [] |}.

Definition getTokenCounter (encoding : TiktokenEncoding)
  : M Worker TokenCounter :=
  fun w =>
    match tokenCounter w with
    | None =>
        let c := new_TokenCounter encoding in
        Some (Resolved c, {| tokenCounter := Some c; worker_log := worker_log w |})
    | Some c => Some (Resolved c, w)
    end.

(** The default export of the worker module. *)
Definition worker (task : OutputMetricsTask) : M Worker Z :=
  let! counter := getTokenCounter (task_encoding task) in
  let! tokenCount := countTokens counter (task_content task) (task_path task) in
  exec! emit (LoggerInfoTimed
                ("Counted output tokens. Count: "
                 +:+ JsString.of_Z tokenCount +:+ ". Took: ") "ms") in
  ret tokenCount.

(** [process.on('exit', ...)]. *)
Definition on_exit : M Worker unit :=
  fun w =>
    match tokenCounter w with
    | Some c =>
        (exec! free c in
         fun w' => Some (Resolved tt,
                     {| tokenCounter := None; worker_log := worker_log w' |})) w
    | None => Some (Resolved tt, w)
    end.

(** A worker serving a sequence of tasks: for each task, the counter that
    [getTokenCounter] handed out and the task's outcome. *)
Fixpoint serve (tasks : list OutputMetricsTask) (w : Worker)
  : option (list (TokenCounter * Outcome Z) * Worker) :=
  match tasks with
  | [] => Some ([], w)
  | task :: rest =>
      match getTokenCounter (task_encoding task) w with
      | Some (Resolved counter, _) =>
          match worker task w with
          | Some (o, w1) =>
              match serve rest w1 with
              | Some (served, w2) => Some ((counter, o) :: served, w2)
              | None => None
              end
          | None => None
          end
      | _ => None
      end
  end.

(** The counter that serves a task on a worker in state [w]. *)
Definition serving_counter (w : Worker) (task : OutputMetricsTask)
  : TokenCounter :=
  match tokenCounter w with
  | Some c => c
  | None => new_TokenCounter (task_encoding task)
  end.

(** A pool that runs every task on one worker: the pool's state is the
    worker's, initialising the pool leaves it alone, and a task settles
    as the worker module settles it. *)
Definition single_worker_init (numOfTasks : Z) (filename : string)
    (w : Worker) : Worker := w.

Definition single_worker_run (task : OutputMetricsTask) (w : Worker)
  : Outcome Z * Worker :=
  match worker task w with
  | Some settled => settled
  | None => (Rejected (OtherError "the worker did not settle"), w)
  end.

(** *** metrics/calculateOutputMetrics.ts *)

Definition CHUNK_SIZE : Z := 1000.
Definition MIN_CONTENT_LENGTH_FOR_PARALLEL : Z := 1000000.

(** The module that the pool runs. *)
Definition worker_module : string := "./workers/outputMetricsWorker".

(** [Math.ceil(a / b)] for [b > 0]. *)
Definition Math_ceil_div (a b : Z) : Z := - ((- a) / b).

(** The [for] loop that cuts the content:
    [for (let i = 0; i < content.length; i += chunkSize)
       chunks.push(content.slice(i, i + chunkSize))]. *)
Fixpoint split_loop (fuel : nat) (content : string) (chunkSize i : Z)
    (chunks : list string) : option (list string) :=
  match fuel with
  | O => None
  | S fuel' =>
      if i <? JsString.length content
      then split_loop fuel' content chunkSize (i + chunkSize)
             (chunks ++ [JsString.slice content i (i + chunkSize)])
      else Some chunks
  end.

Definition split_chunks (content : string) : option (list string) :=
  let chunkSize := Math_ceil_div (JsString.length content) CHUNK_SIZE in
  split_loop (S (String.length content)) content chunkSize 0 [].

(** The chunks that [n] rounds of the loop push, starting at index [i]. *)
Definition chunks_from (content : string) (chunkSize i : Z) (n : nat)
  : list string :=
  map (fun j => JsString.slice content (i + Z.of_nat j * chunkSize)
                      (i + Z.of_nat j * chunkSize + chunkSize))
      (seq 0 n).

(** The label of the chunk at [index]. *)
Definition chunk_path (path : option string) (index : nat) : option string :=
  if truthy (of_optional path)
  then Some (to_string (of_optional path) +:+ "-chunk-"
             +:+ JsString.of_Z (Z.of_nat index))
  else None.

Definition chunk_task (encoding : TiktokenEncoding) (path : option string)
    (index : nat) (chunk : string) : OutputMetricsTask :=
  {| task_content := chunk;
     task_encoding := encoding;
     task_path := chunk_path path index |}.

Section Pool.

(** The worker pool of lib/processConcurrency ([initPiscina]), which is
    not part of the sources at hand: a state [Pool], what initialising it
    for a number of tasks and a worker module does to that state, and
    what [pool.run(task)] settles with.  Every task settles, and the
    tasks of a call are taken in the order of their submission. *)
Variable Pool : Type.
Variable initPiscina : Z -> string -> Pool -> Pool.
Variable pool_run : OutputMetricsTask -> Pool -> Outcome Z * Pool.

(** The main thread: the process-wide pool and the trace. *)
Record Main : Type := { pool : Pool; log : list Event }.

#[export] Instance Main_traced : Traced Main :=
  fun ev w => {| pool := pool w; log := log w ++ [ev] |}.

Definition on_pool {A} (f : Pool -> Outcome A * Pool) : M Main A :=
  fun w =>
    let '(o, p) := f (pool w) in
    Some (o, {| pool := p; log := log w |}).

Definition TaskRunner : Type := OutputMetricsTask -> M Main Z.

(** [(task) => pool.run(task)]. *)
Definition run_on_pool : TaskRunner :=
  fun task => exec! emit (PoolRun task) in on_pool (pool_run task).

Definition initTaskRunner (numOfTasks : Z) : M Main TaskRunner :=
  exec! emit (InitPiscina numOfTasks worker_module) in
  exec! on_pool (fun p => (Resolved tt,
                           initPiscina numOfTasks worker_module p)) in
  ret run_on_pool.

Record OutputDeps : Type := { deps_initTaskRunner : Z -> M Main TaskRunner }.

Definition output_deps : OutputDeps :=
  {| deps_initTaskRunner := initTaskRunner |}.

(** The first message of a run. *)
Definition starting_message (path : option string) : string :=
  "Starting output token count for "
  +:+ to_string (logical_or (of_optional path) (Str "output")).

Definition of_option {A} (o : option A) : M Main A :=
  match o with Some a => ret a | None => out_of_fuel end.

Definition calculateOutputMetrics (content : string)
    (encoding : TiktokenEncoding) (path : option string) (deps : OutputDeps)
  : M Main Z :=
  let shouldRunInParallel :=
    JsString.length content >? MIN_CONTENT_LENGTH_FOR_PARALLEL in
  let numOfTasks := if shouldRunInParallel then CHUNK_SIZE else 1 in
  let! runTask := deps_initTaskRunner deps numOfTasks in
  try_catch
    (exec! emit (LoggerInfo (starting_message path)) in
     let! result :=
       (if shouldRunInParallel
        then
          let! chunks := of_option (split_chunks content) in
          let! chunkResults :=
            promise_all
              (imap (fun index chunk =>
                       runTask (chunk_task encoding path index chunk))
                    chunks) in
          ret (fold_left (fun sum count => sum + count) chunkResults 0)
        else
          runTask {| task_content := content;
                     task_encoding := encoding;
                     task_path := path |}) in
     exec! emit (LoggerInfoTimed "Output token count completed in " "ms") in
     ret result)
    (fun error =>
       exec! emit (LoggerError "Error during token count:" error) in
       throw error).

(** The task of the sequential path. *)
Definition whole_task (content : string) (encoding : TiktokenEncoding)
    (path : option string) : OutputMetricsTask :=
  {| task_content := content; task_encoding := encoding; task_path := path |}.

(** The events of a trace that concern the worker pool. *)
Definition is_pool_event (ev : Event) : bool :=
  match ev with
  | InitPiscina _ _ | PoolRun _ => true
  | _ => false
  end.

Definition pool_events (trace : list Event) : list Event :=
  List.filter is_pool_event trace.

(** The sum of a list of counts. *)
Definition sum_counts (counts : list Z) : Z := fold_right Z.add 0 counts.

(** What the pool settles for a list of tasks submitted in order. *)
Fixpoint settle_all (tasks : list OutputMetricsTask) (p : Pool)
  : list (Outcome Z) * Pool :=
  match tasks with
  | [] => ([], p)
  | task :: rest =>
      let '(o, p1) := pool_run task p in
      let '(os, p2) := settle_all rest p1 in
      (o :: os, p2)
  end.

(** *** metrics/calculateMetrics.ts *)

(** [ProcessedFile] of core/file/fileTypes: a path and a content. *)
Record ProcessedFile : Type := { file_path : string; file_content : string }.

(** What the per-file counting returns for one file. *)
Record FileMetrics : Type := {
  fm_path : string;
  fm_charCount : Z;
  fm_tokenCount : Z
}.

(** The fields of [ConfigMerged] that the function reads:
    [config.tokenCount.encoding] and [config.output.filePath]. *)
Record ConfigMerged : Type := {
  config_tokenCount_encoding : TiktokenEncoding;
  config_output_filePath : string
}.

(** [CalculateMetricsResult].  A [Record<string, number>] made by the
    literal [{}] is the finite map of its own properties, from property
    names to numbers. *)
Record CalculateMetricsResult : Type := {
  totalFiles : Z;
  totalCharacters : Z;
  totalTokens : Z;
  fileCharCounts : gmap string Z;
  fileTokenCounts : gmap string Z
}.

Definition CrawlProgressCallback : Type := string -> M Main unit.

(** Modelled from the spec: calculateAllFileMetrics
    (core/metrics/calculateAllFileMetrics is not among the sources at
    hand).  The per-file character and token counting: one record per
    processed file, in order, with the file's path, the length of its
    content and the count a Token Counter of the encoding gives for it. *)
Fixpoint calculateAllFileMetrics (processedFiles : list ProcessedFile)
    (encoding : TiktokenEncoding) (progressCallback : CrawlProgressCallback)
  : M Main (list FileMetrics) :=
  match processedFiles with
  | [] => ret []
  | file :: rest =>
      let! tokenCount :=
        countTokens (new_TokenCounter encoding)
          (file_content file) (Some (file_path file)) in
      let! metrics := calculateAllFileMetrics rest encoding progressCallback in
      ret ({| fm_path := file_path file;
              fm_charCount := JsString.length (file_content file);
              fm_tokenCount := tokenCount |} :: metrics)
  end.

Record MetricsDeps : Type := {
  deps_calculateAllFileMetrics :
    list ProcessedFile -> TiktokenEncoding -> CrawlProgressCallback
    -> M Main (list FileMetrics);
  deps_calculateOutputMetrics :
    string -> TiktokenEncoding -> option string -> M Main Z
}.

Definition metrics_deps : MetricsDeps :=
  {| deps_calculateAllFileMetrics := calculateAllFileMetrics;
     deps_calculateOutputMetrics :=
       fun content encoding path =>
         calculateOutputMetrics content encoding path output_deps |}.

(** [counts[key] = value] on an object made by the literal [{}], for a
    number [value].  The assignment creates the own property [key] or
    overwrites it, for every key but one: [__proto__] is an accessor of
    [Object.prototype], the assignment runs its setter, which ignores a
    value that is neither an object nor null, and the object gets no
    property. *)
Definition assign (counts : gmap string Z) (key : string) (value : Z)
  : gmap string Z :=
  if String.eqb key "__proto__" then counts else <[key := value]> counts.

(** The [for (const file of fileMetrics)] loop that fills both records. *)
Definition fill_counts (fileMetrics : list FileMetrics)
  : gmap string Z * gmap string Z :=
  fold_left
    (fun counts file =>
       (assign (fst counts) (fm_path file) (fm_charCount file),
        assign (snd counts) (fm_path file) (fm_tokenCount file)))
    fileMetrics (∅, ∅).

Definition calculateMetrics (processedFiles : list ProcessedFile)
    (output : string) (progressCallback : CrawlProgressCallback)
    (config : ConfigMerged) (deps : MetricsDeps)
  : M Main CalculateMetricsResult :=
  exec! progressCallback "Calculating metrics..." in
  let! both :=
    promise_all2
      (deps_calculateAllFileMetrics deps processedFiles
         (config_tokenCount_encoding config) progressCallback)
      (deps_calculateOutputMetrics deps output
         (config_tokenCount_encoding config)
         (Some (config_output_filePath config))) in
  let fileMetrics := fst both in
  let totalTokens := snd both in
  let totalFiles := Z.of_nat (List.length processedFiles) in
  let totalCharacters := JsString.length output in
  let counts := fill_counts fileMetrics in
  ret {| totalFiles := totalFiles;
         totalCharacters := totalCharacters;
         totalTokens := totalTokens;
         fileCharCounts := fst counts;
         fileTokenCounts := snd counts |}.

(** The callback a caller passes: it reports the message. *)
Definition report_progress : CrawlProgressCallback :=
  fun msg => emit (ProgressCallback msg).

End Pool.
End Tokenizer.

End Metrics.

(** ** The job client (the SDK's [CodecrawlApp]) *)

Module Client.
Import Js Effect.
Local Open Scope effect_scope.

(** Calls that leave the client: the two requests and the timer of the
    polling loop. *)
Inductive Event : Type :=
| HttpPost (url : string) (body : Object) (headers : Object)
| HttpGet (url : string) (headers : Object)
| Sleep (ms : Z).

Definition is_get (ev : Event) : bool :=
  match ev with HttpGet _ _ => true | _ => false end.

(** The polls of a trace. *)
Definition polls (trace : list Event) : list Event := List.filter is_get trace.

(** The fields of the instance. *)
Record CodecrawlApp : Type := { apiKey : string; apiUrl : string }.

(** [CodecrawlAppConfig]: each field is a string, or [null] or absent. *)
Record CodecrawlAppConfig : Type := {
  config_apiKey : option string;
  config_apiUrl : option string
}.

Definition default_apiUrl : string := "https://api.irere.dev".

Definition isCloudService (url : string) : bool :=
  JsString.includesb url "api.irere.dev".

(** [a || b] on an optional string: [a] unless it is absent or empty. *)
Definition string_or (a : option string) (b : string) : string :=
  match a with
  | Some s => if JsString.nonempty s then s else b
  | None => b
  end.

(** The constructor. *)
Definition new_CodecrawlApp (config : CodecrawlAppConfig)
  : Outcome CodecrawlApp :=
  let baseUrl := string_or (config_apiUrl config) default_apiUrl in
  if isCloudService baseUrl
     && negb (match config_apiKey config with Some _ => true | None => false end)
  then Rejected (CodecrawlError "No API key provided" (Num 401) Undefined)
  else Resolved {| apiKey := string_or (config_apiKey config) EmptyString;
                   apiUrl := string_or (config_apiUrl config) baseUrl |}.

(** An [AxiosResponse] as a value, for [error.response]. *)
Definition response_value (r : Response) : Value :=
  Obj [("status", Num (status r)); ("data", Obj (data r))].

(** [error.k] on a caught value: a property of the error object; reading
    a property of [null] or [undefined] throws. *)
Definition exn_get (error : Exn) (k : string) : Outcome Value :=
  match error with
  | CodecrawlError m sc d =>
      Resolved (if String.eqb k "message" then Str m
                else if String.eqb k "statusCode" then sc
                else if String.eqb k "details" then d
                else Undefined)
  | AxiosError m r =>
      Resolved (if String.eqb k "message" then Str m
                else if String.eqb k "response"
                     then match r with
                          | Some r => response_value r
                          | None => Undefined
                          end
                else Undefined)
  | TypeError m | OtherError m =>
      Resolved (if String.eqb k "message" then Str m else Undefined)
  | NonError Undefined | NonError Null =>
      Rejected (TypeError ("Cannot read properties of undefined (reading '"
                           +:+ k +:+ "')"))
  | NonError v => Resolved (prop v k)
  end.

(** [v.k] where [v] must not be [null] or [undefined]. *)
Definition member (v : Value) (k : string) : Outcome Value :=
  match v with
  | Undefined | Null =>
      Rejected (TypeError ("Cannot read properties of undefined (reading '"
                           +:+ k +:+ "')"))
  | _ => Resolved (prop v k)
  end.

(** [v === 'literal']. *)
Definition is_string (v : Value) (literal : string) : bool :=
  match v with Str s => String.eqb s literal | _ => false end.

(** The request of a poll got the response [r] from the service: axios
    resolved with it, or threw an [AxiosError] that carries it. *)
Definition receives (reply : Outcome Response) (r : Response) : Prop :=
  reply = Resolved r \/ exists message, reply = Rejected (AxiosError message (Some r)).

(** [{ success: false, error }]. *)
Definition ErrorResponse (error : Value) : Object :=
  [("success", Bool false); ("error", error)].

(** [{ ...params, url }]. *)
Definition with_url (params : option Object) (url : string) : Object :=
  set (match params with Some o => o | None => [] end) "url" (Str url).

Section Service.

(** [JSON.stringify] of the runtime. *)
Variable JSON_stringify : Value -> string.

(** The remote service behind axios: a state, and for a request the
    response axios resolves with or the error it rejects with. *)
Variable Server : Type.
Variable on_post :
  string -> Object -> Object -> Server -> Outcome Response * Server.
Variable on_get : string -> Object -> Server -> Outcome Response * Server.

Record World : Type := { server : Server; trace : list Event }.

Definition emit (ev : Event) : M World unit :=
  fun w => Some (Resolved tt, {| server := server w; trace := trace w ++ [ev] |}).

Definition on_server {A} (f : Server -> Outcome A * Server) : M World A :=
  fun w =>
    let '(o, s) := f (server w) in
    Some (o, {| server := s; trace := trace w |}).

Section App.

Variable this : CodecrawlApp.

Definition prepareHeaders (idempotencyKey : option string) : Object :=
  [("Content-Type", Str "application/json");
   ("Authorization", Str ("Bearer " +:+ apiKey this))]
  ++ (if truthy (of_optional idempotencyKey)
      then [("x-idempotency-key", of_optional idempotencyKey)]
      else []).

Definition postRequest (url : string) (data : Object) (headers : Object)
  : M World Response :=
  exec! emit (HttpPost url data headers) in
  on_server (on_post url data headers).

(** The value returned is [error.response] when axios throws an
    [AxiosError]; it is [undefined] when that error has no response. *)
Definition getRequest (url : string) (headers : Object)
  : M World (option Response) :=
  try_catch
    (exec! emit (HttpGet url headers) in
     let! response := on_server (on_get url headers) in
     ret (Some response))
    (fun error =>
       match error with
       | AxiosError _ response => ret response
       | _ => throw error
       end).

Definition handled_statuses : list Z := [400; 402; 402; 408; 409; 500].

Definition handleError (response : Response) (action : string)
  : M World unit :=
  if existsb (Z.eqb (status response)) handled_statuses
  then
    let errorMessage :=
      logical_or (get (data response) "error")
                 (Str "unknown error occured") in
    let details :=
      if truthy (get (data response) "details")
      then "- " +:+ JSON_stringify (get (data response) "details")
      else EmptyString in
    throw (CodecrawlError
             ("Failed to " +:+ action +:+ ". Status code: "
              +:+ JsString.of_Z (status response) +:+ ". Error: "
              +:+ to_string errorMessage +:+ details)
             (Num (status response))
             (get (data response) "details"))
  else
    throw (CodecrawlError
             ("Unexpected error occurred while " +:+ action
              +:+ ". Status code: " +:+ JsString.of_Z (status response)
              +:+ ".")
             (Num (status response))
             Undefined).

(** [error.response?.data?.k]. *)
Definition response_data (error : Exn) (k : string) : M World Value :=
  let! response := lift (exn_get error "response") in
  ret (prop (prop response "data") k).

(** [error.response.status]. *)
Definition response_status (error : Exn) : M World Value :=
  let! response := lift (exn_get error "response") in
  lift (member response "status").

(** A [try] block either returns from the function or falls through to
    the statement after it. *)
Definition returned_or {A} (fallthrough : A) (r : option A) : A :=
  match r with Some a => a | None => fallthrough end.

Definition asyncGenerateLLMsText (url : string) (params : option Object)
  : M World Object :=
  let headers := prepareHeaders None in
  let! returned :=
    try_catch
      (let! response :=
         postRequest (apiUrl this +:+ "/v1/llmstxt")
           (with_url params url) headers in
       if status response =? 200
       then ret (Some (data response))
       else
         exec! handleError response "start LLMs.txt generation" in
         ret None)
      (fun error =>
         let! server_error := response_data error "error" in
         if truthy server_error
         then
           let! code := response_status error in
           throw (CodecrawlError
                    ("Failed to start LLMs.txt generation. Status code: "
                     +:+ to_string code +:+ ". Error: "
                     +:+ to_string server_error)
                    code Undefined)
         else
           let! code := response_status error in
           throw (CodecrawlError
                    ("Unexpected error occurred while starting LLMs.txt generation. Status code: "
                     +:+ to_string code +:+ ".")
                    code Undefined)) in
  ret (returned_or (ErrorResponse (Str "Internal Server Error")) returned).

Definition checkGenerateLLMsTextStatus (id : string) : M World Object :=
  let headers := prepareHeaders None in
  let! returned :=
    try_catch
      (let! response :=
         getRequest (apiUrl this +:+ "/v1/llmstxt/" +:+ id) headers in
       match response with
       | None =>
           throw (TypeError
                    "Cannot read properties of undefined (reading 'status')")
       | Some response =>
           if status response =? 200
           then ret (Some (data response))
           else if status response =? 404
           then throw (CodecrawlError "LLMs.txt generation job not found"
                         (Num 404) Undefined)
           else
             exec! handleError response "check LLMs.txt generation status" in
             ret None
       end)
      (fun error =>
         let! server_error := response_data error "error" in
         if truthy server_error
         then
           let! code := response_status error in
           let! details := response_data error "details" in
           throw (CodecrawlError
                    ("Request failed with status code " +:+ to_string code
                     +:+ ". Error: " +:+ to_string server_error +:+ " "
                     +:+ (if truthy details
                          then " - " +:+ JSON_stringify details
                          else EmptyString))
                    code Undefined)
         else
           let! message := lift (exn_get error "message") in
           throw (CodecrawlError (Error_message message) (Num 500) Undefined)) in
  ret (returned_or (ErrorResponse (Str "Internal server error.")) returned).

(** How the [while (true)] loop is left without throwing: by a [return]
    of the polled status, or by [break]. *)
Inductive LoopExit : Type :=
| Returned (generationStatus : Object)
| Broke (generationStatus : Object).

Fixpoint poll_loop (fuel : nat) (jobId : Value) : M World LoopExit :=
  match fuel with
  | O => out_of_fuel
  | S fuel' =>
      let! generationStatus := checkGenerateLLMsTextStatus (to_string jobId) in
      if has generationStatus "error"
         && negb (truthy (get generationStatus "success"))
      then ret (Returned generationStatus)
      else if is_string (get generationStatus "status") "completed"
      then ret (Returned generationStatus)
      else if is_string (get generationStatus "status") "failed"
      then throw (CodecrawlError
                    ("LLMs.txt generation failed. Status code: "
                     +:+ to_string (get generationStatus "status")
                     +:+ ". Error: "
                     +:+ to_string (get generationStatus "error"))
                    (get generationStatus "statusCode") Undefined)
      else if negb (is_string (get generationStatus "status") "processing")
      then ret (Broke generationStatus)
      else
        exec! emit (Sleep 2000) in
        poll_loop fuel' jobId
  end.

(** A polled body that the loop hands back at once: it has an [error]
    field and its [success] is not truthy. *)
Definition is_error_response (generationStatus : Object) : bool :=
  has generationStatus "error"
  && negb (truthy (get generationStatus "success")).

(** [completes_after jobId n w final w']: from the world [w], [n] polls
    of the job find it processing, each followed by the delay, and the
    next poll finds it completed with the body [final], in the world
    [w']. *)
Inductive completes_after (jobId : Value)
  : nat -> World -> Object -> World -> Prop :=
| completes_now w final w' :
    checkGenerateLLMsTextStatus (to_string jobId) w
    = Some (Resolved final, w') ->
    is_error_response final = false ->
    is_string (get final "status") "completed" = true ->
    completes_after jobId 0 w final w'
| completes_later n w generationStatus w1 final w' :
    checkGenerateLLMsTextStatus (to_string jobId) w
    = Some (Resolved generationStatus, w1) ->
    is_error_response generationStatus = false ->
    is_string (get generationStatus "status") "processing" = true ->
    completes_after jobId n
      {| server := server w1; trace := trace w1 ++ [Sleep 2000] |}
      final w' ->
    completes_after jobId (S n) w final w'.

(** [processing_for jobId n w w']: from the world [w], [n] polls of the
    job find it processing, each followed by the delay, which leaves the
    world [w']. *)
Inductive processing_for (jobId : Value) : nat -> World -> World -> Prop :=
| processing_done w : processing_for jobId 0 w w
| processing_more n w generationStatus w1 w' :
    checkGenerateLLMsTextStatus (to_string jobId) w
    = Some (Resolved generationStatus, w1) ->
    is_error_response generationStatus = false ->
    is_string (get generationStatus "status") "processing" = true ->
    processing_for jobId n
      {| server := server w1; trace := trace w1 ++ [Sleep 2000] |} w' ->
    processing_for jobId (S n) w w'.

(** The answer to a submission that lets the polling start: HTTP 200
    with a body that has no truthy [success], no [error] field and a
    job id. *)
Definition starts_polling (posted : Response) : Prop :=
  status posted = 200
  /\ truthy (get (data posted) "success") = false
  /\ has (data posted) "error" = false
  /\ truthy (get (data posted) "id") = true.

(** The service answers every poll with the same body. *)
Definition always_answers (body : Object) : Prop :=
  forall url headers s,
    exists s', on_get url headers s
               = (Resolved {| status := 200; data := body |}, s').

(** The response built after a [break]. *)
Definition unexpected_status (generationStatus : Object) : Object :=
  ErrorResponse
    (Str ("LLMs.txt generation ended with unexpected status: "
          +:+ to_string (coalesce (get generationStatus "status")
                                  (Str "unknown")))).

Definition after_loop (exit : LoopExit) : Object :=
  match exit with
  | Returned generationStatus => generationStatus
  | Broke generationStatus => unexpected_status generationStatus
  end.

Definition generateLLMsTxt (fuel : nat) (url : string)
    (params : option Object) : M World Object :=
  try_catch
    (let! response := asyncGenerateLLMsText url params in
     if truthy (get response "success") || has response "error"
     then ret (ErrorResponse
                 (if has response "error"
                  then get response "error"
                  else Str "unknown error"))
     else if negb (truthy (get response "id"))
     then throw (CodecrawlError
                   "Failed to start LLMs.txt generation. No job ID returned"
                   (Num 500) Undefined)
     else
       let jobId := get response "id" in
       let! exit := poll_loop fuel jobId in
       ret (after_loop exit))
    (fun error =>
       let! message := lift (exn_get error "message") in
       let! details := response_data error "details" in
       throw (CodecrawlError (Error_message message) (Num 500) details)).

End App.
End Service.

End Client.

(** ** Sample collaborators

    Concrete stand-ins for what lives outside the code at hand, used to
    run the definitions on explicit inputs. *)

Module Samples.
Import Js Effect Metrics.

(** A tokenizer that gives one token per code unit and, like tiktoken,
    refuses a text that is a special token. *)
Definition sample_encode (name : TiktokenEncoding) (content : string)
  : Outcome (list Z) :=
  if String.eqb content "<|endoftext|>"
  then Rejected (OtherError "The text contains a special token that is not allowed")
  else Resolved (map (fun a => Z.of_N (N_of_ascii a))
                     (list_ascii_of_string content)).

(** A pool of one worker: the pool's state is the worker's, and a task
    runs the worker module on it. *)
Definition one_worker_init (numOfTasks : Z) (filename : string) (w : Worker)
  : Worker := w.

Definition one_worker_run (task : OutputMetricsTask) (w : Worker)
  : Outcome Z * Worker :=
  match worker sample_encode task w with
  | Some settled => settled
  | None => (Rejected (OtherError "the worker did not settle"), w)
  end.

Definition start_of_process : Main Worker :=
  {| pool := fresh_worker; log := [] |}.

(** A content of 2^20 code units, above the parallel threshold. *)
Fixpoint doubled (n : nat) (s : string) : string :=
  match n with
  | O => s
  | S n' => let t := doubled n' s in String.append t t
  end.

Definition large_content : string := doubled 20 "a".

(** The tasks of two worker scenarios. *)
Definition sample_deps : OutputDeps Worker :=
  output_deps Worker one_worker_init one_worker_run.

Definition two_encodings : list OutputMetricsTask :=
  [whole_task "first content" "cl100k_base" None;
   whole_task "second content" "o200k_base" None].

Definition one_encoding : list OutputMetricsTask :=
  [whole_task "first content" "cl100k_base" None;
   whole_task "second content" "cl100k_base" (Some "b.ts")].

(** Two processed files and a configuration. *)
Definition two_files : list ProcessedFile :=
  [{| file_path := "src/a.ts"; file_content := "let a = 1;" |};
   {| file_path := "src/b.ts"; file_content := "<|endoftext|>" |}].

Definition sample_config : ConfigMerged :=
  {| config_tokenCount_encoding := "o200k_base";
     config_output_filePath := "codecrawl-output.md" |}.

(** A repository with a file named [__proto__] at its root. *)
Definition with_proto_file : list ProcessedFile :=
  [{| file_path := "src/a.ts"; file_content := "let a = 1;" |};
   {| file_path := "__proto__"; file_content := "hello" |}].

(** Two records under one path. *)
Definition same_path_twice : list ProcessedFile :=
  [{| file_path := "README.md"; file_content := "old" |};
   {| file_path := "src/a.ts"; file_content := "let a = 1;" |};
   {| file_path := "README.md"; file_content := "newer" |}].

Definition sample_metrics_deps : MetricsDeps Worker :=
  metrics_deps sample_encode Worker one_worker_init one_worker_run.

(** Collaborators whose per-file counting fails. *)
Definition failing_file_deps : MetricsDeps Worker :=
  {| deps_calculateAllFileMetrics :=
       fun _ _ _ => Effect.throw (OtherError "file metrics failed");
     deps_calculateOutputMetrics :=
       deps_calculateOutputMetrics Worker sample_metrics_deps |}.

(** A worker that holds a counter. *)
Definition busy_worker : Worker :=
  {| tokenCounter := Some (new_TokenCounter "o200k_base"); worker_log := [] |}.

(** *** A scripted service *)

Import Client.

(** The service answers the submission with [post_reply] and the polls
    with [get_replies], one after the other; when the script is over the
    connection fails. *)
Record Script : Type := {
  post_reply : Outcome Response;
  get_replies : list (Outcome Response)
}.

Definition script_post (url : string) (body headers : Object) (s : Script)
  : Outcome Response * Script :=
  (post_reply s, s).

Definition script_get (url : string) (headers : Object) (s : Script)
  : Outcome Response * Script :=
  match get_replies s with
  | [] => (Rejected (AxiosError "Network Error" None), s)
  | reply :: rest =>
      (reply, {| post_reply := post_reply s; get_replies := rest |})
  end.

(** A [JSON.stringify] for strings without characters to escape. *)
Definition quote : string := String "034"%char EmptyString.

Fixpoint sample_stringify (v : Value) : string :=
  match v with
  | Undefined => "undefined"
  | Null => "null"
  | Bool true => "true"
  | Bool false => "false"
  | Num z => JsString.of_Z z
  | Str s => quote +:+ s +:+ quote
  | Obj fields =>
      "{" +:+
      (fix members (l : list (string * Value)) : string :=
         match l with
         | [] => EmptyString
         | [(k, v)] => quote +:+ k +:+ quote +:+ ":" +:+ sample_stringify v
         | (k, v) :: l' =>
             quote +:+ k +:+ quote +:+ ":" +:+ sample_stringify v
             +:+ "," +:+ members l'
         end) fields
      +:+ "}"
  end.

Definition sample_app : CodecrawlApp :=
  {| apiKey := "cc-key"; apiUrl := "https://api.irere.dev" |}.

Definition ok (body : Object) : Outcome Response :=
  Resolved {| status := 200; data := body |}.

(** What axios throws for a response outside 2xx. *)
Definition http_error (code : Z) (body : Object) : Outcome Response :=
  Rejected (AxiosError ("Request failed with status code " +:+ JsString.of_Z code)
                       (Some {| status := code; data := body |})).

Definition submitted : Object := [("success", Bool true); ("id", Str "job-123")].

Definition processing : Object :=
  [("success", Bool true); ("status", Str "processing");
   ("data", Obj []); ("expiresAt", Str "2025-06-01T00:00:00.000Z")].

Definition completed : Object :=
  [("success", Bool true); ("status", Str "completed");
   ("data", Obj [("llmstxt", Str "# codecrawl")]);
   ("expiresAt", Str "2025-06-01T00:00:00.000Z")].

Definition start_of_run (s : Script) : World Script :=
  {| server := s; trace := [] |}.

(** The scenario of the specification: the submission succeeds, two polls
    find the job processing, the third finds it completed. *)
Definition completes_on_third_poll : Script :=
  {| post_reply := ok submitted;
     get_replies := [ok processing; ok processing; ok completed] |}.

(** The same scenario with a submission answer that carries no
    [success] field. *)
Definition completes_on_third_poll_bare_id : Script :=
  {| post_reply := ok [("id", Str "job-123")];
     get_replies := [ok processing; ok processing; ok completed] |}.

(** The first poll finds no such job. *)
Definition job_not_found : Script :=
  {| post_reply := ok [("id", Str "job-123")];
     get_replies :=
       [http_error 404 [("success", Bool false); ("error", Str "Job not found")];
        ok completed] |}.

(** A poll answered with an error body whose status the client does not
    know. *)
Definition poll_error_body : Object :=
  [("success", Bool false); ("status", Str "cancelled");
   ("error", Str "the job was cancelled")].

Definition poll_answers_error : Script :=
  {| post_reply := ok [("id", Str "job-123")];
     get_replies := [ok poll_error_body; ok completed] |}.

(** A poll answered with a status that the client does not know. *)
Definition poll_answers_queued : Script :=
  {| post_reply := ok [("id", Str "job-123")];
     get_replies :=
       [ok [("success", Bool true); ("status", Str "queued")]; ok completed] |}.

(** The second poll finds a status that the client does not know. *)
Definition queued : Object := [("success", Bool true); ("status", Str "queued")].

Definition queued_on_second_poll : Script :=
  {| post_reply := ok [("id", Str "job-123")];
     get_replies := [ok processing; ok queued; ok completed] |}.

(** The request of a poll for the job of the scenarios. *)
Definition poll_url : string := "https://api.irere.dev/v1/llmstxt/job-123".

Definition poll_headers : Object :=
  [("Content-Type", Str "application/json");
   ("Authorization", Str "Bearer cc-key")].

(** The submission is refused with an error body. *)
Definition submission_refused : Script :=
  {| post_reply := http_error 402 [("success", Bool false);
                                   ("error", Str "Insufficient credits")];
     get_replies := [] |}.

(** The submission does not reach the service. *)
Definition submission_unreachable : Script :=
  {| post_reply := Rejected (AxiosError "Network Error" None);
     get_replies := [] |}.

(** The submission is answered without a job id. *)
Definition submission_without_id : Script :=
  {| post_reply := ok [("success", Bool false)]; get_replies := [ok completed] |}.

(** The submission is answered with an error field. *)
Definition submission_with_error : Script :=
  {| post_reply := ok [("success", Bool false); ("error", Str "Invalid URL");
                       ("id", Str "job-123")];
     get_replies := [ok completed] |}.

(** A poll is answered with HTTP 500. *)
Definition poll_fails : Script :=
  {| post_reply := ok [("id", Str "job-123")];
     get_replies :=
       [http_error 500 [("success", Bool false); ("error", Str "boom")]] |}.

(** The second poll finds the job failed; the body has no [error] field. *)
Definition failed_body : Object :=
  [("success", Bool true); ("status", Str "failed"); ("statusCode", Num 422)].

Definition fails_on_second_poll : Script :=
  {| post_reply := ok [("id", Str "job-123")];
     get_replies := [ok processing; ok failed_body; ok completed] |}.

(** The second poll finds the job failed, with the reason in [error]. *)
Definition rate_limited : Object :=
  [("status", Str "failed"); ("error", Str "rate limited")].

Definition rate_limited_on_second_poll : Script :=
  {| post_reply := ok [("id", Str "job-123")];
     get_replies := [ok processing; ok rate_limited; ok completed] |}.

(** A service whose job never leaves processing. *)
Definition forever_post (url : string) (body headers : Object) (s : unit)
  : Outcome Response * unit :=
  (ok [("id", Str "job-123")], s).

Definition forever_get (url : string) (headers : Object) (s : unit)
  : Outcome Response * unit :=
  (ok processing, s).

(** The repository of the scenarios. *)
Definition repository : string := "https://github.com/Idee8/codecrawl".

Definition run_generateLLMsTxt (fuel : nat) (s : Script)
  : option (Outcome Object * World Script) :=
  generateLLMsTxt sample_stringify Script script_post script_get sample_app
    fuel "https://github.com/Idee8/codecrawl" None (start_of_run s).

Definition run_checkStatus (s : Script)
  : option (Outcome Object * World Script) :=
  checkGenerateLLMsTextStatus sample_stringify Script script_get
    sample_app "job-123" (start_of_run s).

End Samples.

(** * Properties

    ** Strings *)

Module JsStringFacts.
Import JsString.

Lemma substring_length (s : string) :
  forall n m, String.length (substring n m s) = Nat.min m (String.length s - n).
Proof.
  induction s as [|a s IH]; intros [|n] [|m]; simpl; try reflexivity.
  - rewrite IH. rewrite Nat.sub_0_r. reflexivity.
  - apply IH.
  - apply IH.
Qed.

Lemma append_cons (a : ascii) (s t : string) :
  String.append (String a s) t = String a (String.append s t).
Proof. reflexivity. Qed.

Lemma substring_append (s : string) :
  forall n m k,
    String.append (substring n m s) (substring (n + m) k s)
    = substring n (m + k) s.
Proof.
  induction s as [|a s IH]; intros n m k.
  - destruct n, m, k; reflexivity.
  - destruct n as [|n].
    + destruct m as [|m]; simpl.
      * reflexivity.
      * rewrite append_cons. f_equal. apply (IH 0%nat m k).
    + simpl. apply IH.
Qed.

Lemma substring_whole (s : string) :
  forall m, (String.length s <= m)%nat -> substring 0 m s = s.
Proof.
  induction s as [|a s IH]; intros [|m] H; simpl in *; try reflexivity; try lia.
  f_equal. apply IH. lia.
Qed.

Lemma append_nil_r (s : string) : String.append s EmptyString = s.
Proof. induction s; [reflexivity | rewrite append_cons; congruence]. Qed.

Lemma append_assoc (s t u : string) :
  String.append (String.append s t) u = String.append s (String.append t u).
Proof. induction s; [reflexivity | rewrite !append_cons; congruence]. Qed.

Lemma length_slice (s : string) (b e : Z) :
  0 <= b -> b <= e ->
  length (slice s b e) = Z.min e (length s) - Z.min b (length s).
Proof.
  intros Hb He. unfold slice, clamp, length.
  destruct (Z.ltb_spec b 0); [lia|].
  destruct (Z.ltb_spec e 0); [lia|].
  rewrite substring_length. lia.
Qed.

Lemma slice_append (s : string) (a b c : Z) :
  0 <= a -> a <= b -> b <= c ->
  String.append (slice s a b) (slice s b c) = slice s a c.
Proof.
  intros Ha Hab Hbc. unfold slice, clamp.
  destruct (Z.ltb_spec a 0); [lia|].
  destruct (Z.ltb_spec b 0); [lia|].
  destruct (Z.ltb_spec c 0); [lia|].
  set (len := length s).
  replace (Z.to_nat (Z.min b len))
    with (Z.to_nat (Z.min a len) + Z.to_nat (Z.max (Z.min b len - Z.min a len) 0))%nat
    by lia.
  rewrite substring_append. f_equal. lia.
Qed.

Lemma slice_whole (s : string) (e : Z) :
  length s <= e -> slice s 0 e = s.
Proof.
  intros He. unfold slice, clamp, length in *. simpl.
  destruct (Z.ltb_spec e 0); [lia|].
  replace (Z.to_nat (Z.min 0 _)) with 0%nat by lia.
  apply substring_whole. lia.
Qed.

Lemma substring_zero (s : string) : forall n, substring n 0 s = EmptyString.
Proof. induction s as [|a s IH]; intros [|n]; simpl; auto. Qed.

Lemma slice_empty (s : string) (b : Z) : slice s b b = EmptyString.
Proof.
  unfold slice.
  replace (Z.to_nat (Z.max _ 0)) with 0%nat by lia.
  apply substring_zero.
Qed.

End JsStringFacts.

(** ** The metrics engine *)

Module MetricsFacts.
Import Js Effect Metrics JsString JsStringFacts.
Local Open Scope effect_scope.

(** *** Cutting the content into chunks *)

Lemma chunks_from_S content c i n :
  chunks_from content c i (S n)
  = slice content i (i + c) :: chunks_from content c (i + c) n.
Proof.
  unfold chunks_from. rewrite <- cons_seq, <- seq_shift. simpl.
  rewrite map_map. f_equal.
  - f_equal; lia.
  - apply map_ext. intros j. f_equal; lia.
Qed.

Lemma length_chunks_from content c i n :
  List.length (chunks_from content c i n) = n.
Proof. unfold chunks_from. rewrite length_map, length_seq. reflexivity. Qed.

Lemma lookup_chunks_from content c i n (k : nat) :
  (k < n)%nat ->
  chunks_from content c i n !! k
  = Some (slice content (i + Z.of_nat k * c) (i + Z.of_nat k * c + c)).
Proof.
  intros Hk. unfold chunks_from.
  rewrite list_lookup_fmap, lookup_seq_lt by assumption. reflexivity.
Qed.

(** With enough fuel the loop runs [n] rounds, where [n] is the number of
    steps of [chunkSize] that it takes to leave the content. *)
Lemma split_loop_rounds content c :
  0 < c ->
  forall n fuel i chunks,
    0 <= i ->
    (n < fuel)%nat ->
    length content <= i + Z.of_nat n * c ->
    (n <> 0%nat -> i + (Z.of_nat n - 1) * c < length content) ->
    split_loop fuel content c i chunks
    = Some (chunks ++ chunks_from content c i n).
Proof.
  intros Hc. induction n as [|n IH]; intros fuel i chunks Hi Hfuel Hup Hlow.
  - destruct fuel as [|fuel]; [lia|]. simpl.
    destruct (Z.ltb_spec i (length content)); [lia|].
    unfold chunks_from. simpl. rewrite app_nil_r. reflexivity.
  - destruct fuel as [|fuel]; [lia|]. simpl.
    assert (i < length content) by (specialize (Hlow ltac:(lia)); nia).
    destruct (Z.ltb_spec i (length content)); [|lia].
    rewrite IH by lia.
    rewrite chunks_from_S, <- app_assoc. reflexivity.
Qed.

(** The chunks of a run cover the content from [i] on, in order. *)
Lemma join_chunks_from content c i n :
  0 <= i -> 0 <= c ->
  join (chunks_from content c i n) = slice content i (i + Z.of_nat n * c).
Proof.
  intros Hi Hc. revert i Hi. induction n as [|n IH]; intros i Hi.
  - unfold chunks_from. simpl. rewrite Z.add_0_r, slice_empty. reflexivity.
  - rewrite chunks_from_S. simpl. rewrite IH by lia.
    rewrite slice_append by nia. f_equal. lia.
Qed.

(** [Math.ceil(a / b)] is the least [q] with [a <= q * b]. *)
Lemma Math_ceil_div_spec a b :
  0 < b -> a <= Math_ceil_div a b * b /\ (Math_ceil_div a b - 1) * b < a.
Proof.
  intros Hb. unfold Math_ceil_div.
  pose proof (Z.div_mod (- a) b ltac:(lia)) as Hdm.
  pose proof (Z.mod_pos_bound (- a) b Hb) as Hmod.
  nia.
Qed.

(** Above the threshold the loop makes exactly [CHUNK_SIZE] rounds:
    with [len = 1000 q + r] and [q >= 1000], 999 chunks of
    [Math.ceil(len / 1000)] do not reach the end of the content. *)
Lemma chunk_rounds len :
  MIN_CONTENT_LENGTH_FOR_PARALLEL < len ->
  let c := Math_ceil_div len CHUNK_SIZE in
  1000 < c /\ len <= 1000 * c /\ 999 * c < len.
Proof.
  intros Hlen c.
  pose proof (Math_ceil_div_spec len CHUNK_SIZE ltac:(reflexivity)) as [Hup Hlow].
  fold c in Hup, Hlow. unfold CHUNK_SIZE, MIN_CONTENT_LENGTH_FOR_PARALLEL in *.
  lia.
Qed.

Lemma split_chunks_parallel content :
  MIN_CONTENT_LENGTH_FOR_PARALLEL < length content ->
  split_chunks content
  = Some (chunks_from content
            (Math_ceil_div (length content) CHUNK_SIZE) 0 1000).
Proof.
  intros Hlen. unfold split_chunks.
  destruct (chunk_rounds _ Hlen) as (Hc & Hup & Hlow).
  set (c := Math_ceil_div (length content) CHUNK_SIZE) in *.
  assert (Hpos : 0 < c) by lia.
  rewrite (split_loop_rounds content c Hpos 1000%nat); try lia.
  - reflexivity.
  - unfold MIN_CONTENT_LENGTH_FOR_PARALLEL, length in *. lia.
Qed.

(** *** The Token Counter and the worker *)

Section TokenizerFacts.

Variable encode : TiktokenEncoding -> string -> Outcome (list Z).

Local Abbreviation countTokens := (Metrics.countTokens encode).
Local Abbreviation token_count := (Metrics.token_count encode).
Local Abbreviation worker := (Metrics.worker encode).
Local Abbreviation serve := (Metrics.serve encode).

Lemma countTokens_run {W} `{Traced W} this content filePath (w : W) :
  countTokens this content filePath w
  = Some (Resolved (token_count (bound_encoding this) content),
          match encode (bound_encoding this) content with
          | Resolved _ => w
          | Rejected error => record (LoggerWarn (failure_warning filePath error)) w
          end).
Proof.
  unfold Metrics.countTokens, Metrics.token_count, try_catch, bind, lift, ret.
  destruct (encode (bound_encoding this) content) as [tokens|error];
    [reflexivity|].
  unfold failure_warning, error_text, emit.
  destruct filePath as [label|]; [|reflexivity].
  simpl. destruct (nonempty label); reflexivity.
Qed.

Lemma includes_middle pre s post : includes (pre +:+ s +:+ post) s.
Proof. exists pre, post. reflexivity. Qed.

Lemma includes_suffix pre s : includes (pre +:+ s) s.
Proof. exists pre, EmptyString. rewrite append_nil_r. reflexivity. Qed.

Lemma includes_empty s : includes s EmptyString.
Proof. exists EmptyString, s. reflexivity. Qed.

Lemma failure_warning_includes_label label error :
  includes (failure_warning (Some label) error) label.
Proof.
  unfold failure_warning. destruct label as [|a label].
  - apply includes_empty.
  - apply includes_middle.
Qed.

Lemma failure_warning_includes_error filePath error :
  includes (failure_warning filePath error) (error_text error).
Proof.
  unfold failure_warning. destruct filePath as [label|].
  - destruct (nonempty label).
    + rewrite <- !append_assoc. apply includes_suffix.
    + apply includes_suffix.
  - apply includes_suffix.
Qed.

(** C5.  For every counter, content and optional label, [countTokens]
    returns a count that is not negative and does not throw: when the
    tokenizer encodes the content the count is the number of tokens and
    nothing is logged; when the tokenizer throws, the count is 0 and one
    warning is logged, which carries the text of the error and, when a
    label is given, the label. *)
Theorem countTokens_never_raises {W} `{Traced W}
    (this : TokenCounter) (content : string) (filePath : option string)
    (w : W) :
  exists count w',
    countTokens this content filePath w = Some (Resolved count, w')
    /\ 0 <= count
    /\ match encode (bound_encoding this) content with
       | Resolved tokens =>
           count = Z.of_nat (List.length tokens) /\ w' = w
       | Rejected error =>
           count = 0
           /\ exists diagnostic,
                w' = record (LoggerWarn diagnostic) w
                /\ diagnostic = failure_warning filePath error
                /\ includes diagnostic (error_text error)
                /\ forall label, filePath = Some label ->
                     includes diagnostic label
       end.
Proof.
  eexists; eexists. split; [apply countTokens_run|].
  unfold Metrics.token_count.
  destruct (encode (bound_encoding this) content) as [tokens|error].
  - split; [lia|]. split; reflexivity.
  - split; [lia|]. split; [reflexivity|].
    eexists. split; [reflexivity|]. split; [reflexivity|].
    split; [apply failure_warning_includes_error|].
    intros label ->. apply failure_warning_includes_label.
Qed.

Lemma getTokenCounter_run encoding (w : Worker) :
  getTokenCounter encoding w
  = Some (Resolved (match tokenCounter w with
                    | Some c => c
                    | None => new_TokenCounter encoding
                    end),
          match tokenCounter w with
          | Some _ => w
          | None => {| tokenCounter := Some (new_TokenCounter encoding);
                       worker_log := worker_log w |}
          end).
Proof. unfold getTokenCounter. destruct (tokenCounter w); reflexivity. Qed.

(** One task on a worker: the count is the one of the serving counter,
    which stays in the module variable. *)
Lemma worker_run task (w : Worker) :
  exists w',
    worker task w
    = Some (Resolved (token_count (bound_encoding (serving_counter w task))
                                  (task_content task)), w')
    /\ tokenCounter w' = Some (serving_counter w task).
Proof.
  unfold Metrics.worker, serving_counter. unfold bind at 1.
  rewrite getTokenCounter_run.
  unfold bind at 1. rewrite countTokens_run.
  unfold bind, emit, ret, record, Worker_traced.
  destruct (tokenCounter w) as [c|] eqn:Hc;
    (destruct (encode _ (task_content task));
     eexists; (split; [reflexivity|]); simpl; try rewrite Hc; reflexivity).
Qed.

(** Once the module variable holds a counter, every task is served by it. *)
Lemma serve_with_counter c : forall tasks (w : Worker),
  tokenCounter w = Some c ->
  exists served w',
    serve tasks w = Some (served, w')
    /\ tokenCounter w' = Some c
    /\ Forall2 (fun task s =>
                  s = (c, Resolved (token_count (bound_encoding c)
                                                (task_content task))))
               tasks served.
Proof.
  induction tasks as [|task tasks IH]; intros w Hc.
  - exists [], w. repeat split; [exact Hc | constructor].
  - destruct (worker_run task w) as (w1 & Hrun & Hc1).
    unfold serving_counter in Hrun, Hc1. rewrite Hc in Hrun, Hc1.
    destruct (IH w1 Hc1) as (served & w2 & Hserve & Hc2 & Hall).
    exists ((c, Resolved (token_count (bound_encoding c) (task_content task)))
            :: served), w2.
    cbn [Metrics.serve]. rewrite getTokenCounter_run, Hc, Hrun, Hserve.
    repeat split; [exact Hc2|]. constructor; [reflexivity | exact Hall].
Qed.

(** A fresh worker creates its counter for the first task, with that
    task's encoding, and serves every task of the sequence with it. *)
Lemma serve_fresh first rest :
  let c := new_TokenCounter (task_encoding first) in
  exists served w',
    serve (first :: rest) fresh_worker = Some (served, w')
    /\ tokenCounter w' = Some c
    /\ Forall2 (fun task s =>
                  s = (c, Resolved (token_count (bound_encoding c)
                                                (task_content task))))
               (first :: rest) served.
Proof.
  intros c.
  destruct (worker_run first fresh_worker) as (w1 & Hrun & Hc1).
  unfold serving_counter in Hrun, Hc1. cbn [tokenCounter fresh_worker] in Hrun, Hc1.
  fold c in Hrun, Hc1.
  destruct (serve_with_counter c rest w1 Hc1) as (served & w2 & Hserve & Hc2 & Hall).
  exists ((c, Resolved (token_count (bound_encoding c) (task_content first)))
          :: served), w2.
  cbn [Metrics.serve]. rewrite getTokenCounter_run.
  cbn [tokenCounter fresh_worker]. rewrite Hrun, Hserve.
  repeat split; [exact Hc2|]. constructor; [reflexivity | exact Hall].
Qed.

(** C8, as the code has it.  Inside a worker the counter is one lazily
    created singleton: none before the first task, created for the first
    task with that task's encoding, and the same instance for every later
    task.  So for every sequence of counting tasks that all request the
    same encoding, each task's count is produced by a Token Counter bound
    to that task's requested encoding. *)
Theorem worker_counts_with_requested_encoding tasks encoding :
  Forall (fun task => task_encoding task = encoding) tasks ->
  exists served w',
    serve tasks fresh_worker = Some (served, w')
    /\ tokenCounter w'
       = match tasks with
         | [] => None
         | _ :: _ => Some (new_TokenCounter encoding)
         end
    /\ Forall2 (fun task s =>
                  fst s = new_TokenCounter encoding
                  /\ bound_encoding (fst s) = task_encoding task
                  /\ snd s = Resolved (token_count (task_encoding task)
                                                   (task_content task)))
               tasks served.
Proof.
  intros Hsame. destruct tasks as [|first rest].
  - exists [], fresh_worker. repeat split. constructor.
  - destruct (serve_fresh first rest) as (served & w' & Hserve & Hc & Hall).
    assert (Hfirst : task_encoding first = encoding)
      by (inversion Hsame; assumption).
    rewrite Hfirst in Hc, Hall.
    exists served, w'. split; [exact Hserve|]. split; [exact Hc|].
    clear Hserve. revert Hsame Hall.
    generalize (first :: rest) as l. intros l Hsame Hall.
    induction Hall as [|task s l served' Hs Hall IH]; [constructor|].
    inversion Hsame as [|? ? Htask Hrest]; subst.
    constructor; [|apply IH; exact Hrest].
    simpl. rewrite Htask. repeat split; reflexivity.
Qed.

End TokenizerFacts.

(** *** The task runner over the pool *)

Section PoolFacts.

Variable Pool : Type.
Variable initPiscina : Z -> string -> Pool -> Pool.
Variable pool_run : OutputMetricsTask -> Pool -> Outcome Z * Pool.

Local Abbreviation Main := (Metrics.Main Pool).
Local Abbreviation initTaskRunner := (Metrics.initTaskRunner Pool initPiscina pool_run).
Local Abbreviation output_deps := (Metrics.output_deps Pool initPiscina pool_run).
Local Abbreviation calculateOutputMetrics := (Metrics.calculateOutputMetrics Pool).
Local Abbreviation settle_all := (Metrics.settle_all Pool pool_run).
Local Abbreviation run_on_pool := (Metrics.run_on_pool Pool pool_run).

Lemma initTaskRunner_run numOfTasks (w : Main) :
  initTaskRunner numOfTasks w
  = Some (Resolved run_on_pool,
          {| pool := initPiscina numOfTasks worker_module (pool _ w);
             log := log _ w ++ [InitPiscina numOfTasks worker_module] |}).
Proof. reflexivity. Qed.

Lemma run_on_pool_run task (w : Main) :
  run_on_pool task w
  = Some (fst (pool_run task (pool _ w)),
          {| pool := snd (pool_run task (pool _ w));
             log := log _ w ++ [PoolRun task] |}).
Proof.
  unfold Metrics.run_on_pool, bind, emit, on_pool, record, Main_traced. simpl.
  destruct (pool_run task (pool _ w)); reflexivity.
Qed.

Lemma start_all_run_on_pool tasks : forall (w : Main),
  start_all (map run_on_pool tasks) w
  = Some (fst (settle_all tasks (pool _ w)),
          {| pool := snd (settle_all tasks (pool _ w));
             log := log _ w ++ map PoolRun tasks |}).
Proof.
  induction tasks as [|task tasks IH]; intros w.
  - simpl. rewrite app_nil_r. destruct w; reflexivity.
  - cbn [map start_all Metrics.settle_all]. rewrite run_on_pool_run, IH. simpl.
    destruct (pool_run task (pool _ w)) as [o p1]. simpl.
    destruct (Metrics.settle_all Pool pool_run tasks p1) as [os p2]. simpl.
    rewrite <- app_assoc. reflexivity.
Qed.

Lemma calculateOutputMetrics_parallel_run content enc path chunks (w : Main) :
  MIN_CONTENT_LENGTH_FOR_PARALLEL < length content ->
  split_chunks content = Some chunks ->
  let tasks := imap (chunk_task enc path) chunks in
  let settled := settle_all tasks (initPiscina CHUNK_SIZE worker_module (pool _ w)) in
  let started :=
    log _ w ++ [InitPiscina CHUNK_SIZE worker_module;
                LoggerInfo (starting_message path)] ++ map PoolRun tasks in
  calculateOutputMetrics content enc path output_deps w
  = Some
      (match await_all (fst settled) with
       | Resolved counts =>
           (Resolved (fold_left Z.add counts 0),
            {| pool := snd settled;
               log := started
                      ++ [LoggerInfoTimed "Output token count completed in " "ms"] |})
       | Rejected e =>
           (Rejected e,
            {| pool := snd settled;
               log := started ++ [LoggerError "Error during token count:" e] |})
       end).
Proof.
  intros Hlen Hsplit tasks settled started.
  unfold Metrics.calculateOutputMetrics.
  replace (length content >? MIN_CONTENT_LENGTH_FOR_PARALLEL) with true
    by (symmetry; apply Z.gtb_lt; exact Hlen).
  cbn [Metrics.deps_initTaskRunner Metrics.output_deps].
  unfold bind at 1. rewrite initTaskRunner_run.
  rewrite Hsplit. 
  unfold try_catch, bind, emit, of_option, ret, promise_all, record, Main_traced. cbn [pool log].
  replace (imap (fun index chunk => run_on_pool (chunk_task enc path index chunk)) chunks)
    with (map run_on_pool tasks)
    by (unfold tasks; apply (fmap_imap (chunk_task enc path) run_on_pool)).
  rewrite start_all_run_on_pool. cbn [pool log]. fold settled.
  unfold started.
  destruct (await_all settled.1); unfold throw; cbn [pool log];
    rewrite <- !app_assoc; reflexivity.
Qed.

Lemma calculateOutputMetrics_sequential_run content enc path (w : Main) :
  length content <= MIN_CONTENT_LENGTH_FOR_PARALLEL ->
  let task := whole_task content enc path in
  let settled := pool_run task (initPiscina 1 worker_module (pool _ w)) in
  let started :=
    log _ w ++ [InitPiscina 1 worker_module;
                LoggerInfo (starting_message path); PoolRun task] in
  calculateOutputMetrics content enc path output_deps w
  = Some
      (match fst settled with
       | Resolved count =>
           (Resolved count,
            {| pool := snd settled;
               log := started
                      ++ [LoggerInfoTimed "Output token count completed in " "ms"] |})
       | Rejected e =>
           (Rejected e,
            {| pool := snd settled;
               log := started ++ [LoggerError "Error during token count:" e] |})
       end).
Proof.
  intros Hlen task settled started.
  unfold Metrics.calculateOutputMetrics.
  replace (length content >? MIN_CONTENT_LENGTH_FOR_PARALLEL) with false
    by (symmetry; rewrite Z.gtb_ltb; apply Z.ltb_ge; exact Hlen).
  cbn [Metrics.deps_initTaskRunner Metrics.output_deps].
  unfold bind at 1. rewrite initTaskRunner_run.
  unfold try_catch, bind at 1 2 3.
  unfold emit at 1, record, Main_traced. cbn [pool log].
  rewrite run_on_pool_run. cbn [pool log].
  unfold started, settled, task, whole_task.
  destruct (pool_run _ _) as [[count|e] p];
    unfold bind, emit, ret, throw, record; cbn [pool log fst snd];
    rewrite <- !app_assoc; reflexivity.
Qed.


Lemma pool_events_PoolRun tasks :
  pool_events (map PoolRun tasks) = map PoolRun tasks.
Proof.
  induction tasks as [|task tasks IH]; [reflexivity|].
  unfold pool_events in *. simpl. rewrite IH. reflexivity.
Qed.

Lemma pool_events_app trace1 trace2 :
  pool_events (trace1 ++ trace2) = pool_events trace1 ++ pool_events trace2.
Proof. apply List.filter_app. Qed.

Lemma fold_left_add_sum counts : forall acc,
  fold_left Z.add counts acc = acc + sum_counts counts.
Proof.
  induction counts as [|count counts IH]; intros acc; simpl.
  - lia.
  - rewrite IH. lia.
Qed.

Lemma await_all_resolved {A} (values : list A) :
  await_all (map Resolved values) = Resolved values.
Proof.
  induction values as [|a values IH]; [reflexivity|].
  simpl. rewrite IH. reflexivity.
Qed.

Lemma await_all_rejected {A} (outcomes : list (Outcome A)) :
  Exists (fun o => is_rejected o = true) outcomes ->
  exists e, In (Rejected e) outcomes /\ await_all outcomes = Rejected e.
Proof.
  induction outcomes as [|o outcomes IH]; intros Hex.
  - inversion Hex.
  - destruct o as [a|e].
    + inversion Hex as [? ? Hhead|? ? Htail]; subst; [discriminate|].
      destruct (IH Htail) as (e & Hin & Hawait).
      exists e. split; [right; exact Hin|]. simpl. rewrite Hawait. reflexivity.
    + exists e. split; [left; reflexivity | reflexivity].
Qed.

(** C2, as the code has it.  For every content of at most 1,000,000 code
    units, [calculateOutputMetrics] does not cut the content: it
    initialises the task runner for one task and submits one task that
    carries the whole content, the encoding and the path; these are its
    only calls to the pool, and it settles as that one task does. *)
Theorem small_content_runs_one_task content enc path (w : Main) :
  length content <= MIN_CONTENT_LENGTH_FOR_PARALLEL ->
  let task := whole_task content enc path in
  let settled := pool_run task (initPiscina 1 worker_module (pool _ w)) in
  exists w' events,
    calculateOutputMetrics content enc path output_deps w
    = Some (fst settled, w')
    /\ pool _ w' = snd settled
    /\ log _ w' = log _ w ++ events
    /\ pool_events events = [InitPiscina 1 worker_module; PoolRun task].
Proof.
  intros Hlen task settled.
  rewrite (calculateOutputMetrics_sequential_run content enc path w Hlen).
  fold task. fold settled.
  destruct (fst settled) as [count|e]; eexists; eexists;
    (split; [reflexivity|]); (split; [reflexivity|]);
    cbn [log]; rewrite <- app_assoc;
    (split; [reflexivity|]); reflexivity.
Qed.

(** C3.  For every content longer than the parallel threshold, the
    splitting step yields exactly 1000 chunks; chunk [k] is the slice of
    the content from [k * chunkSize] to [(k + 1) * chunkSize], so the
    chunks are contiguous and do not overlap; the first 999 have
    [chunkSize] code units and the last one is not empty and not longer;
    joined in order they give back the content; the task of chunk [k]
    carries the chunk, the encoding and the label [path-chunk-k] made from
    the original label (no label when there is none), and these tasks are
    the ones submitted to the pool. *)
Theorem large_content_split_into_chunks content enc path (w : Main) :
  MIN_CONTENT_LENGTH_FOR_PARALLEL < length content ->
  exists chunks,
    split_chunks content = Some chunks
    /\ Z.of_nat (List.length chunks) = CHUNK_SIZE
    /\ join chunks = content
    /\ (let chunkSize := Math_ceil_div (length content) CHUNK_SIZE in
        (forall k : nat, (k < 1000)%nat ->
           chunks !! k
           = Some (slice content (Z.of_nat k * chunkSize)
                         (Z.of_nat k * chunkSize + chunkSize)))
        /\ (forall (k : nat) chunk, (k < 999)%nat ->
              chunks !! k = Some chunk -> length chunk = chunkSize)
        /\ (forall chunk, chunks !! 999%nat = Some chunk ->
              0 < length chunk <= chunkSize))
    /\ (forall (k : nat) chunk, chunks !! k = Some chunk ->
          imap (chunk_task enc path) chunks !! k
          = Some {| task_content := chunk;
                    task_encoding := enc;
                    task_path :=
                      match path with
                      | Some label =>
                          if nonempty label
                          then Some (label +:+ "-chunk-" +:+ of_Z (Z.of_nat k))
                          else None
                      | None => None
                      end |})
    /\ exists o w' events,
         calculateOutputMetrics content enc path output_deps w = Some (o, w')
         /\ log _ w' = log _ w ++ events
         /\ pool_events events
            = InitPiscina CHUNK_SIZE worker_module
              :: map PoolRun (imap (chunk_task enc path) chunks).
Proof.
  intros Hlen.
  pose proof (split_chunks_parallel content Hlen) as Hsplit.
  destruct (chunk_rounds _ Hlen) as (Hc & Hup & Hlow).
  set (c := Math_ceil_div (length content) CHUNK_SIZE) in *.
  exists (chunks_from content c 0 1000). split; [exact Hsplit|].
  split; [rewrite length_chunks_from; reflexivity|].
  split.
  { rewrite join_chunks_from by lia. apply slice_whole. lia. }
  split.
  { split; [|split].
    - intros k Hk. rewrite lookup_chunks_from by exact Hk. reflexivity.
    - intros k chunk Hk Hlook.
      rewrite lookup_chunks_from in Hlook by lia.
      injection Hlook as <-. rewrite length_slice by nia. nia.
    - intros chunk Hlook.
      rewrite lookup_chunks_from in Hlook by lia.
      injection Hlook as <-. rewrite length_slice by lia. lia. }
  split.
  { intros k chunk Hlook. rewrite list_lookup_imap, Hlook. simpl.
    unfold chunk_task, chunk_path. destruct path as [label|]; [|reflexivity].
    simpl. destruct (nonempty label); reflexivity. }
  rewrite (calculateOutputMetrics_parallel_run content enc path _ w Hlen Hsplit).
  set (tasks := imap (chunk_task enc path) (chunks_from content c 0 1000)).
  assert (Hev : forall last,
    pool_events ([InitPiscina CHUNK_SIZE worker_module;
                  LoggerInfo (starting_message path)]
                 ++ map PoolRun tasks ++ [last])
    = InitPiscina CHUNK_SIZE worker_module
      :: map PoolRun tasks ++ pool_events [last]).
  { intros last. rewrite !pool_events_app, pool_events_PoolRun.
    reflexivity. }
  destruct (await_all _) as [counts|e]; eexists; eexists; eexists;
    (split; [reflexivity|]); cbn [log]; rewrite <- !app_assoc;
    (split; [reflexivity|]); rewrite Hev; cbn [pool_events List.filter is_pool_event];
    rewrite ?app_nil_r; reflexivity.
Qed.

(** C4.  For every content on the parallel path, all chunk tasks are
    submitted and settled before the result is formed: when every chunk
    task resolves, [calculateOutputMetrics] resolves with the sum of their
    counts; when some chunk task rejects, it rejects with the error of a
    rejected chunk task and returns no count. *)
Theorem large_content_count_is_sum content enc path (w : Main) :
  MIN_CONTENT_LENGTH_FOR_PARALLEL < length content ->
  exists chunks,
    split_chunks content = Some chunks
    /\ let tasks := imap (chunk_task enc path) chunks in
       let settled :=
         settle_all tasks (initPiscina CHUNK_SIZE worker_module (pool _ w)) in
       exists o w',
         calculateOutputMetrics content enc path output_deps w = Some (o, w')
         /\ pool _ w' = snd settled
         /\ (forall counts,
               fst settled = map Resolved counts ->
               o = Resolved (sum_counts counts))
         /\ (Exists (fun settled_task => is_rejected settled_task = true)
                    (fst settled) ->
             exists e, In (Rejected e) (fst settled) /\ o = Rejected e).
Proof.
  intros Hlen.
  pose proof (split_chunks_parallel content Hlen) as Hsplit.
  eexists. split; [exact Hsplit|]. intros tasks settled.
  rewrite (calculateOutputMetrics_parallel_run content enc path _ w Hlen Hsplit).
  fold tasks. fold settled.
  destruct (await_all (fst settled)) as [counts|e] eqn:Hawait.
  - eexists; eexists. split; [reflexivity|]. split; [reflexivity|]. split.
    + intros counts' Hall. rewrite Hall, await_all_resolved in Hawait.
      injection Hawait as <-. rewrite fold_left_add_sum. reflexivity.
    + intros Hex. destruct (await_all_rejected _ Hex) as (e & _ & Habs).
      congruence.
  - eexists; eexists. split; [reflexivity|]. split; [reflexivity|]. split.
    + intros counts Hall. rewrite Hall, await_all_resolved in Hawait.
      discriminate.
    + intros Hex. destruct (await_all_rejected _ Hex) as (e' & Hin & Heq).
      exists e'. split; [exact Hin|]. congruence.
Qed.

End PoolFacts.

(** *** The report *)

Section ReportFacts.

Variable encode : TiktokenEncoding -> string -> Outcome (list Z).
Variable Pool : Type.
Variable initPiscina : Z -> string -> Pool -> Pool.
Variable pool_run : OutputMetricsTask -> Pool -> Outcome Z * Pool.

Local Abbreviation Main := (Metrics.Main Pool).
Local Abbreviation output_deps := (Metrics.output_deps Pool initPiscina pool_run).
Local Abbreviation calculateOutputMetrics := (Metrics.calculateOutputMetrics Pool).
Local Abbreviation calculateAllFileMetrics := (Metrics.calculateAllFileMetrics encode Pool).
Local Abbreviation metrics_deps := (Metrics.metrics_deps encode Pool initPiscina pool_run).
Local Abbreviation calculateMetrics := (Metrics.calculateMetrics Pool).

Lemma calculateOutputMetrics_returns content enc path (w : Main) :
  exists o w', calculateOutputMetrics content enc path output_deps w = Some (o, w').
Proof.
  destruct (Z_le_gt_dec (length content) MIN_CONTENT_LENGTH_FOR_PARALLEL) as [Hle|Hgt].
  - rewrite (calculateOutputMetrics_sequential_run _ _ _ content enc path w Hle).
    destruct (fst _); eexists; eexists; reflexivity.
  - assert (Hlt : MIN_CONTENT_LENGTH_FOR_PARALLEL < length content) by lia.
    rewrite (calculateOutputMetrics_parallel_run _ _ _ content enc path _ w Hlt
               (split_chunks_parallel content Hlt)).
    destruct (await_all _); eexists; eexists; reflexivity.
Qed.

(** The per-file counting gives one record per file, in order, under the
    file's path, and does not reject. *)
Lemma calculateAllFileMetrics_run files enc callback : forall (w : Main),
  exists fileMetrics w',
    calculateAllFileMetrics files enc callback w
    = Some (Resolved fileMetrics, w')
    /\ map fm_path fileMetrics = map file_path files.
Proof.
  induction files as [|file files IH]; intros w.
  - exists [], w. split; reflexivity.
  - cbn [Metrics.calculateAllFileMetrics]. unfold bind at 1.
    rewrite countTokens_run.
    match goal with |- context [match ?e with Resolved _ => w | Rejected _ => _ end] =>
      set (w1 := match e with Resolved _ => w | Rejected error => _ end) end.
    destruct (IH w1) as (fileMetrics & w2 & Hrun & Hpaths).
    unfold bind. rewrite Hrun. eexists; eexists. split; [reflexivity|].
    simpl. rewrite Hpaths. reflexivity.
Qed.

(** The keys an assignment adds: its key, unless it is [__proto__]. *)
Lemma dom_assign (counts : gmap string Z) key value :
  dom (assign counts key value)
  = dom counts ∪ (({[key]} : gset string) ∖ {["__proto__"]}).
Proof.
  unfold assign. destruct (String.eqb_spec key "__proto__") as [->|Hne].
  - rewrite difference_diag_L, (right_id_L ∅ (∪)). reflexivity.
  - rewrite dom_insert_L, (comm_L (∪) {[key]} (dom counts)). f_equal.
    apply set_eq. intros p.
    rewrite elem_of_difference, !elem_of_singleton. split.
    + intros ->. split; [reflexivity | exact Hne].
    + intros [Hp _]. exact Hp.
Qed.

Lemma fill_counts_dom fileMetrics :
  dom (fst (fill_counts fileMetrics))
    = (list_to_set (map fm_path fileMetrics) : gset string) ∖ {["__proto__"]}
  /\ dom (snd (fill_counts fileMetrics))
    = (list_to_set (map fm_path fileMetrics) : gset string) ∖ {["__proto__"]}.
Proof.
  unfold fill_counts.
  assert (Hgen : forall (counts : gmap string Z * gmap string Z),
    let filled :=
      fold_left
        (fun counts file =>
           (assign (fst counts) (fm_path file) (fm_charCount file),
            assign (snd counts) (fm_path file) (fm_tokenCount file)))
        fileMetrics counts in
    dom (fst filled)
    = dom (fst counts)
      ∪ (list_to_set (map fm_path fileMetrics) : gset string) ∖ {["__proto__"]}
    /\ dom (snd filled)
       = dom (snd counts)
         ∪ (list_to_set (map fm_path fileMetrics) : gset string)
           ∖ {["__proto__"]}).
  { induction fileMetrics as [|file fileMetrics IH]; intros counts.
    - cbn [fold_left map]. rewrite list_to_set_nil, empty_difference_L.
      rewrite !(right_id_L ∅ (∪)). split; reflexivity.
    - cbn [fold_left map].
      destruct (IH (assign (fst counts) (fm_path file) (fm_charCount file),
                    assign (snd counts) (fm_path file) (fm_tokenCount file)))
        as [Hchars Htokens].
      cbn zeta in Hchars, Htokens. cbn [fst snd] in Hchars, Htokens.
      cbn zeta. rewrite Hchars, Htokens, !dom_assign.
      rewrite list_to_set_cons.
      rewrite (difference_union_distr_l_L (C:=gset string) {[fm_path file]}
                 (list_to_set (map fm_path fileMetrics))).
      rewrite !(assoc_L (∪)). split; reflexivity. }
  destruct (Hgen (∅, ∅)) as [Hchars Htokens]. simpl in Hchars, Htokens.
  rewrite Hchars, Htokens, !dom_empty_L, !(left_id_L ∅ (∪)).
  split; reflexivity.
Qed.

(** What [calculateMetrics] does with the results of its two
    collaborators, whatever they are. *)
Lemma calculateMetrics_run files output callback config deps
    (w w0 w1 w2 : Main) fileMetrics o :
  callback "Calculating metrics..." w = Some (Resolved tt, w0) ->
  deps_calculateAllFileMetrics Pool deps files
    (config_tokenCount_encoding config) callback w0
  = Some (Resolved fileMetrics, w1) ->
  deps_calculateOutputMetrics Pool deps output
    (config_tokenCount_encoding config)
    (Some (config_output_filePath config)) w1
  = Some (o, w2) ->
  calculateMetrics files output callback config deps w
  = Some (match o with
          | Resolved tokens =>
              Resolved {| totalFiles := Z.of_nat (List.length files);
                          totalCharacters := length output;
                          totalTokens := tokens;
                          fileCharCounts := fst (fill_counts fileMetrics);
                          fileTokenCounts := snd (fill_counts fileMetrics) |}
          | Rejected e => Rejected e
          end, w2).
Proof.
  intros Hcallback Hfiles Hout.
  unfold Metrics.calculateMetrics. unfold bind at 1. rewrite Hcallback.
  unfold bind, promise_all2. rewrite Hfiles, Hout.
  destruct o; reflexivity.
Qed.

(** C6 fails on the code for a file named [__proto__].  For every list
    of processed files and every output string, [calculateMetrics]
    settles; the report it returns has [totalCharacters] equal to the
    length of the output and [totalFiles] equal to the number of file
    records, and each per-file record has one entry for each input file
    path other than [__proto__] and no other entry.  A file of the path
    [__proto__] is counted in [totalFiles] and has no entry in either
    record.  No report is returned only when the output token count
    rejects. *)
Theorem proto_path_gets_no_entry files output config (w : Main) :
  exists o w',
    calculateMetrics files output (report_progress Pool) config metrics_deps w
    = Some (o, w')
    /\ match o with
       | Resolved report =>
           totalCharacters report = length output
           /\ totalFiles report = Z.of_nat (List.length files)
           /\ dom (fileCharCounts report)
              = (list_to_set (map file_path files) : gset string)
                ∖ {["__proto__"]}
           /\ dom (fileTokenCounts report)
              = (list_to_set (map file_path files) : gset string)
                ∖ {["__proto__"]}
           /\ fileCharCounts report !! "__proto__" = None
           /\ fileTokenCounts report !! "__proto__" = None
       | Rejected e =>
           exists w1,
             calculateOutputMetrics output (config_tokenCount_encoding config)
               (Some (config_output_filePath config)) output_deps w1
             = Some (Rejected e, w')
       end.
Proof.
  set (w0 := record (ProgressCallback "Calculating metrics...") w).
  destruct (calculateAllFileMetrics_run files (config_tokenCount_encoding config)
              (report_progress Pool) w0)
    as (fileMetrics & w1 & Hfiles & Hpaths).
  destruct (calculateOutputMetrics_returns output
              (config_tokenCount_encoding config)
              (Some (config_output_filePath config)) w1) as (o & w2 & Hout).
  eexists; eexists. split.
  - apply (calculateMetrics_run files output (report_progress Pool) config
             metrics_deps w w0 w1 w2 fileMetrics o);
      [reflexivity | exact Hfiles | exact Hout].
  - destruct o as [tokens|e].
    + cbn [totalCharacters totalFiles fileCharCounts fileTokenCounts].
      destruct (fill_counts_dom fileMetrics) as [Hchars Htokens].
      assert (Hproto : forall counts : gmap string Z,
                dom counts
                = (list_to_set (map fm_path fileMetrics) : gset string)
                  ∖ {["__proto__"]} ->
                counts !! "__proto__" = None).
      { intros counts Hdom. apply not_elem_of_dom. rewrite Hdom.
        rewrite elem_of_difference, elem_of_singleton. intros [_ Habs].
        apply Habs. reflexivity. }
      split; [reflexivity|]. split; [reflexivity|].
      rewrite <- Hpaths.
      split; [exact Hchars|]. split; [exact Htokens|].
      split; apply Hproto; assumption.
    + exists w1. exact Hout.
Qed.

End ReportFacts.

(** *** The theorems on explicit inputs *)

Import Samples.

(** A run of [calculateMetrics] on two files, the second of which the
    tokenizer refuses. *)
Example calculateMetrics_two_files :
  exists report w',
    calculateMetrics Worker two_files "let a = 1;"
      (report_progress Worker) sample_config
      (metrics_deps sample_encode Worker one_worker_init one_worker_run)
      start_of_process
    = Some (Resolved report, w')
    /\ totalFiles report = 2
    /\ totalCharacters report = 10
    /\ totalTokens report = 10
    /\ fileCharCounts report !! "src/b.ts" = Some 13
    /\ fileTokenCounts report !! "src/a.ts" = Some 10
    /\ fileTokenCounts report !! "src/b.ts" = Some 0
    /\ fileTokenCounts report !! "src/c.ts" = None.
Proof. eexists; eexists. repeat split; vm_compute; reflexivity. Qed.

(** A run of [calculateMetrics] on two files, the second of which is
    named [__proto__]: both are counted, and the second has no entry. *)
Example calculateMetrics_proto_file :
  exists report w',
    calculateMetrics Worker with_proto_file "let a = 1;"
      (report_progress Worker) sample_config
      (metrics_deps sample_encode Worker one_worker_init one_worker_run)
      start_of_process
    = Some (Resolved report, w')
    /\ totalFiles report = 2
    /\ fileCharCounts report = {[ "src/a.ts" := 10 ]}
    /\ fileTokenCounts report = {[ "src/a.ts" := 10 ]}
    /\ fileCharCounts report !! "__proto__" = None
    /\ fileTokenCounts report !! "__proto__" = None.
Proof. eexists; eexists. repeat split; vm_compute; reflexivity. Qed.

Lemma small_content_runs_one_task_witness :
  length "hello world" <= MIN_CONTENT_LENGTH_FOR_PARALLEL
  /\ exists w' events,
       calculateOutputMetrics Worker "hello world" "cl100k_base"
         (Some "out.txt") sample_deps start_of_process
       = Some (Resolved 11, w')
       /\ log _ w' = events
       /\ pool_events events
          = [InitPiscina 1 worker_module;
             PoolRun (whole_task "hello world" "cl100k_base" (Some "out.txt"))].
Proof.
  assert (Hlen : length "hello world" <= MIN_CONTENT_LENGTH_FOR_PARALLEL)
    by (vm_compute; discriminate).
  split; [exact Hlen|].
  destruct (small_content_runs_one_task Worker one_worker_init one_worker_run
              "hello world" "cl100k_base" (Some "out.txt") start_of_process Hlen)
    as (w' & events & Hrun & _ & Hlog & Hevents).
  exists w', events. split; [exact Hrun|]. split; [exact Hlog|]. exact Hevents.
Defined.

(** C2 as stated fails: a content below the threshold is counted by a task
    sent through the pool, which is initialised for it. *)
Lemma small_content_goes_through_pool :
  ~ (forall content enc path (w : Main Worker) o w',
       length content <= MIN_CONTENT_LENGTH_FOR_PARALLEL ->
       calculateOutputMetrics Worker content enc path sample_deps w
       = Some (o, w') ->
       pool_events (log _ w') = pool_events (log _ w)).
Proof.
  intros Hclaim.
  assert (Hlen : length "hello world" <= MIN_CONTENT_LENGTH_FOR_PARALLEL)
    by (vm_compute; discriminate).
  specialize (Hclaim "hello world" "cl100k_base" None start_of_process
                _ _ Hlen eq_refl).
  vm_compute in Hclaim. discriminate Hclaim.
Qed.

Lemma large_content_split_into_chunks_witness :
  MIN_CONTENT_LENGTH_FOR_PARALLEL < length large_content
  /\ exists chunks,
       split_chunks large_content = Some chunks
       /\ Z.of_nat (List.length chunks) = 1000
       /\ join chunks = large_content.
Proof.
  assert (Hlen : MIN_CONTENT_LENGTH_FOR_PARALLEL < length large_content)
    by (vm_compute; reflexivity).
  split; [exact Hlen|].
  destruct (large_content_split_into_chunks Worker one_worker_init
              one_worker_run large_content "cl100k_base" (Some "out.txt")
              start_of_process Hlen)
    as (chunks & Hsplit & Hcount & Hjoin & _).
  exists chunks. split; [exact Hsplit|]. split; [exact Hcount|]. exact Hjoin.
Defined.

Lemma large_content_count_is_sum_witness :
  MIN_CONTENT_LENGTH_FOR_PARALLEL < length large_content
  /\ exists chunks o w',
       split_chunks large_content = Some chunks
       /\ calculateOutputMetrics Worker large_content "cl100k_base"
            (Some "out.txt") sample_deps start_of_process
          = Some (o, w').
Proof.
  assert (Hlen : MIN_CONTENT_LENGTH_FOR_PARALLEL < length large_content)
    by (vm_compute; reflexivity).
  split; [exact Hlen|].
  destruct (large_content_count_is_sum Worker one_worker_init one_worker_run
              large_content "cl100k_base" (Some "out.txt")
              start_of_process Hlen)
    as (chunks & Hsplit & o & w' & Hrun & _).
  exists chunks, o, w'. split; [exact Hsplit | exact Hrun].
Defined.

(** C8 as stated fails: a worker that has served a task of one encoding
    serves a task of another encoding with the same counter. *)
Lemma worker_counter_not_per_encoding :
  ~ (forall tasks served w',
       serve sample_encode tasks fresh_worker = Some (served, w') ->
       Forall2 (fun task s => bound_encoding (fst s) = task_encoding task)
               tasks served).
Proof.
  intros Hclaim.
  specialize (Hclaim two_encodings _ _ eq_refl).
  inversion Hclaim as [|? ? ? ? _ Hrest]; subst.
  inversion Hrest as [|? ? ? ? Hsecond _]; subst.
  vm_compute in Hsecond. discriminate Hsecond.
Qed.

Lemma worker_counts_with_requested_encoding_witness :
  Forall (fun task => task_encoding task = "cl100k_base") one_encoding
  /\ exists served w',
       serve sample_encode one_encoding fresh_worker = Some (served, w')
       /\ tokenCounter w' = Some (new_TokenCounter "cl100k_base").
Proof.
  assert (Hsame : Forall (fun task => task_encoding task = "cl100k_base")
                         one_encoding)
    by (repeat constructor).
  split; [exact Hsame|].
  destruct (worker_counts_with_requested_encoding sample_encode one_encoding
              "cl100k_base" Hsame)
    as (served & w' & Hserve & Hcounter & _).
  exists served, w'. split; [exact Hserve | exact Hcounter].
Defined.

End MetricsFacts.
(** ** More on the metrics engine *)

Module MetricsExtra.
Import Js Effect Metrics JsString JsStringFacts MetricsFacts.
Local Open Scope effect_scope.

(** *** Labels of the chunks *)

(** The decimal text of an integer reads back as that integer. *)
Lemma of_Z_reads_back z :
  option_map Z.of_int (NilZero.int_of_string (of_Z z)) = Some z.
Proof.
  unfold of_Z. rewrite NilZero.isi.
  - simpl. rewrite DecimalZ.of_to. reflexivity.
  - destruct z as [|p|p]; simpl; try discriminate.
    intros [= H]. exact (DecimalPos.Unsigned.to_uint_nonnil p H).
  - destruct z as [|p|p]; simpl; try discriminate.
    intros [= H]. exact (DecimalPos.Unsigned.to_uint_nonnil p H).
Qed.

Lemma of_Z_inj a b : of_Z a = of_Z b -> a = b.
Proof.
  intros Heq.
  pose proof (of_Z_reads_back a) as Ha. rewrite Heq, of_Z_reads_back in Ha.
  congruence.
Qed.

Lemma append_cancel_l s : forall t u,
  String.append s t = String.append s u -> t = u.
Proof.
  induction s as [|a s IH]; intros t u Heq; [exact Heq|].
  rewrite !append_cons in Heq. injection Heq as Heq. apply IH. exact Heq.
Qed.

Lemma chunk_path_inj label i j :
  nonempty label = true ->
  chunk_path (Some label) i = chunk_path (Some label) j -> i = j.
Proof.
  intros Hlabel. unfold chunk_path. simpl. rewrite Hlabel.
  intros [= Heq]. apply append_cancel_l, append_cancel_l, of_Z_inj in Heq.
  lia.
Qed.

(** X1.  With a label that is not empty, the chunk tasks of one call
    carry pairwise different labels, so a diagnostic names one chunk;
    with an empty label or none, no chunk task carries a label. *)
Theorem chunk_labels_identify_chunks encoding label chunks :
  nonempty label = true ->
  NoDup (map task_path (imap (chunk_task encoding (Some label)) chunks))
  /\ Forall (fun task => task_path task = None)
            (imap (chunk_task encoding (Some EmptyString)) chunks)
  /\ Forall (fun task => task_path task = None)
            (imap (chunk_task encoding None) chunks).
Proof.
  intros Hlabel. split; [|split].
  - apply NoDup_alt. intros i j p Hi Hj.
    rewrite list_lookup_fmap, list_lookup_imap in Hi, Hj.
    destruct (chunks !! i) as [ci|]; [|discriminate].
    destruct (chunks !! j) as [cj|]; [|discriminate].
    simpl in Hi, Hj. injection Hi as Hi. injection Hj as Hj.
    apply (chunk_path_inj label i j Hlabel). congruence.
  - apply Forall_lookup. intros i task Hi.
    rewrite list_lookup_imap in Hi.
    destruct (chunks !! i); [|discriminate]. injection Hi as <-. reflexivity.
  - apply Forall_lookup. intros i task Hi.
    rewrite list_lookup_imap in Hi.
    destruct (chunks !! i); [|discriminate]. injection Hi as <-. reflexivity.
Qed.

(** *** The worker's counter over its life *)

Section WorkerLife.

Variable encode : TiktokenEncoding -> string -> Outcome (list Z).

Local Abbreviation worker := (Metrics.worker encode).
Local Abbreviation token_count := (Metrics.token_count encode).
Local Abbreviation single_worker_run := (Metrics.single_worker_run encode).

(** X2.  The exit handler frees the counter of the worker once and
    clears the module variable: it logs one release when a counter
    exists and none otherwise, a second exit releases nothing, and the
    first task after it is served by a new counter made for that task's
    encoding. *)
Theorem on_exit_releases_once (w : Worker) :
  exists w',
    on_exit w = Some (Resolved tt, w')
    /\ tokenCounter w' = None
    /\ worker_log w'
       = worker_log w
         ++ match tokenCounter w with
            | Some c => [TiktokenFree (bound_encoding c)]
            | None => []
            end
    /\ on_exit w' = Some (Resolved tt, w')
    /\ forall task,
         serving_counter w' task = new_TokenCounter (task_encoding task).
Proof.
  destruct w as [[c|] l]; unfold on_exit; simpl.
  - eexists. split; [reflexivity|]. simpl. repeat split.
  - eexists. split; [reflexivity|]. simpl. rewrite app_nil_r. repeat split.
Qed.

(** What a pool of one worker settles for a list of tasks, once the
    worker holds a counter. *)
Lemma settle_all_with_counter c : forall tasks (w : Worker),
  tokenCounter w = Some c ->
  fst (settle_all Worker single_worker_run tasks w)
  = map (fun task => Resolved (token_count (bound_encoding c)
                                           (task_content task))) tasks
  /\ tokenCounter (snd (settle_all Worker single_worker_run tasks w)) = Some c.
Proof.
  induction tasks as [|task tasks IH]; intros w Hc.
  - split; [reflexivity | exact Hc].
  - destruct (worker_run encode task w) as (w1 & Hrun & Hc1).
    unfold serving_counter in Hrun, Hc1. rewrite Hc in Hrun, Hc1.
    cbn [settle_all]. unfold Metrics.single_worker_run at 1 3. rewrite Hrun.
    destruct (IH w1 Hc1) as [Hfst Hsnd].
    destruct (settle_all Worker single_worker_run tasks w1) as [os w2].
    simpl in *. rewrite Hfst. split; [reflexivity | exact Hsnd].
Qed.

Lemma chunk_tasks_contents {A} (f : string -> A) encoding path chunks :
  map (fun task => f (task_content task))
      (imap (chunk_task encoding path) chunks)
  = map f chunks.
Proof.
  apply list_eq. intros i.
  rewrite !list_lookup_fmap, list_lookup_imap.
  destruct (chunks !! i); reflexivity.
Qed.

(** X3.  When the pool runs its tasks on one worker and that worker
    holds a counter, so that none is constructed, the output token count
    never rejects, whatever the tokenizer does with the content: up to
    the threshold it is the count of the whole content, above it the sum
    of the counts of the chunks (a chunk that cannot be tokenized counts
    0).  The counts are taken with the encoding of the counter that the
    worker holds, whatever encoding is requested, and the worker holds
    the same counter afterwards. *)
Theorem single_worker_count content encoding path (w : Main Worker) c :
  tokenCounter (pool _ w) = Some c ->
  exists w',
    calculateOutputMetrics Worker content encoding path
      (output_deps Worker single_worker_init single_worker_run) w
    = Some (Resolved
              (if length content >? MIN_CONTENT_LENGTH_FOR_PARALLEL
               then sum_counts
                      (map (token_count (bound_encoding c))
                           (chunks_from content
                              (Math_ceil_div (length content) CHUNK_SIZE)
                              0 1000))
               else token_count (bound_encoding c) content),
            w')
    /\ tokenCounter (pool _ w') = Some c.
Proof.
  intros Hc.
  destruct (Z.gtb_spec (length content) MIN_CONTENT_LENGTH_FOR_PARALLEL)
    as [Hgt|Hle].
  - assert (Hlen : MIN_CONTENT_LENGTH_FOR_PARALLEL < length content) by lia.
    rewrite (calculateOutputMetrics_parallel_run Worker single_worker_init
               single_worker_run content encoding path _ w Hlen
               (split_chunks_parallel content Hlen)).
    unfold single_worker_init.
    destruct (settle_all_with_counter c
                (imap (chunk_task encoding path)
                   (chunks_from content
                      (Math_ceil_div (length content) CHUNK_SIZE) 0 1000))
                (pool _ w) Hc) as [Hfst Hsnd].
    rewrite Hfst.
    rewrite (chunk_tasks_contents
               (fun chunk => Resolved (token_count (bound_encoding c) chunk))).
    rewrite <- (map_map (token_count (bound_encoding c)) Resolved).
    rewrite await_all_resolved, fold_left_add_sum.
    eexists. split; [reflexivity | exact Hsnd].
  - rewrite (calculateOutputMetrics_sequential_run Worker single_worker_init
               single_worker_run content encoding path w Hle).
    unfold single_worker_init.
    destruct (worker_run encode (whole_task content encoding path) (pool _ w))
      as (w1 & Hrun & Hc1).
    unfold serving_counter in Hrun, Hc1. rewrite Hc in Hrun, Hc1.
    unfold Metrics.single_worker_run. rewrite Hrun. cbn [fst snd].
    eexists. split; [reflexivity | exact Hc1].
Qed.

End WorkerLife.

(** *** The report and its two collaborators *)

Section Report.

Variable Pool : Type.

Local Abbreviation Main := (Metrics.Main Pool).
Local Abbreviation calculateMetrics := (Metrics.calculateMetrics Pool).

(** What an assignment leaves under a key. *)
Lemma lookup_assign_proto (counts : gmap string Z) key value :
  assign counts key value !! "__proto__" = counts !! "__proto__".
Proof.
  unfold assign. destruct (String.eqb_spec key "__proto__") as [_|Hne];
    [reflexivity|].
  apply lookup_insert_ne. exact Hne.
Qed.

Lemma lookup_assign_eq (counts : gmap string Z) key value :
  String.eqb key "__proto__" = false ->
  assign counts key value !! key = Some value.
Proof.
  intros Hkey. unfold assign. rewrite Hkey. apply lookup_insert_eq.
Qed.

Lemma lookup_assign_ne (counts : gmap string Z) key value (p : string) :
  key <> p -> assign counts key value !! p = counts !! p.
Proof.
  intros Hne. unfold assign. destruct (String.eqb key "__proto__");
    [reflexivity|].
  apply lookup_insert_ne. exact Hne.
Qed.

Lemma fill_counts_lookup fileMetrics (p : string) :
  String.eqb p "__proto__" = false ->
  fst (fill_counts fileMetrics) !! p
  = fm_charCount <$> last (filter (fun fm => fm_path fm = p) fileMetrics)
  /\ snd (fill_counts fileMetrics) !! p
  = fm_tokenCount <$> last (filter (fun fm => fm_path fm = p) fileMetrics).
Proof.
  intros Hp. unfold fill_counts.
  assert (Hgen : forall (counts : gmap string Z * gmap string Z),
    let filled :=
      fold_left
        (fun counts file =>
           (assign (fst counts) (fm_path file) (fm_charCount file),
            assign (snd counts) (fm_path file) (fm_tokenCount file)))
        fileMetrics counts in
    fst filled !! p
    = match last (filter (fun fm => fm_path fm = p) fileMetrics) with
      | Some fm => Some (fm_charCount fm)
      | None => fst counts !! p
      end
    /\ snd filled !! p
    = match last (filter (fun fm => fm_path fm = p) fileMetrics) with
      | Some fm => Some (fm_tokenCount fm)
      | None => snd counts !! p
      end).
  { induction fileMetrics as [|file rest IH]; intros counts.
    - split; reflexivity.
    - cbn [fold_left].
      destruct (IH (assign (fst counts) (fm_path file) (fm_charCount file),
                    assign (snd counts) (fm_path file) (fm_tokenCount file)))
        as [Hchars Htokens].
      cbn zeta in Hchars, Htokens. cbn [fst snd] in Hchars, Htokens.
      cbn zeta. rewrite Hchars, Htokens.
      rewrite filter_cons. destruct (decide (fm_path file = p)) as [Heq|Hne].
      + rewrite last_cons.
        destruct (last (filter _ rest)); [split; reflexivity|].
        rewrite <- Heq in Hp. rewrite <- Heq, !lookup_assign_eq by exact Hp.
        split; reflexivity.
      + destruct (last (filter _ rest)); [split; reflexivity|].
        rewrite !lookup_assign_ne by exact Hne. split; reflexivity. }
  destruct (Hgen (∅, ∅)) as [Hchars Htokens].
  cbn zeta in Hchars, Htokens. rewrite Hchars, Htokens.
  destruct (last _); split; reflexivity.
Qed.

Lemma fill_counts_proto fileMetrics :
  fst (fill_counts fileMetrics) !! "__proto__" = None
  /\ snd (fill_counts fileMetrics) !! "__proto__" = None.
Proof.
  unfold fill_counts.
  assert (Hgen : forall (counts : gmap string Z * gmap string Z),
    let filled :=
      fold_left
        (fun counts file =>
           (assign (fst counts) (fm_path file) (fm_charCount file),
            assign (snd counts) (fm_path file) (fm_tokenCount file)))
        fileMetrics counts in
    fst filled !! "__proto__" = fst counts !! "__proto__"
    /\ snd filled !! "__proto__" = snd counts !! "__proto__").
  { induction fileMetrics as [|file rest IH]; intros counts.
    - split; reflexivity.
    - cbn [fold_left].
      destruct (IH (assign (fst counts) (fm_path file) (fm_charCount file),
                    assign (snd counts) (fm_path file) (fm_tokenCount file)))
        as [Hchars Htokens].
      cbn zeta in Hchars, Htokens. cbn [fst snd] in Hchars, Htokens.
      cbn zeta. rewrite Hchars, Htokens, !lookup_assign_proto.
      split; reflexivity. }
  destruct (Hgen (∅, ∅)) as [Hchars Htokens].
  cbn zeta in Hchars, Htokens. rewrite Hchars, Htokens.
  split; reflexivity.
Qed.

(** X4.  Whatever the two collaborators are, when both resolve the
    report carries the count of the output as [totalTokens], and the entry
    of a path other than [__proto__] in each per-file record is taken from
    the last record that the per-file counting returned for that path; a
    path without a record has no entry, and [__proto__] has none whatever
    records are returned for it. *)
Theorem report_keeps_last_record files output callback config deps
    (w w0 w1 w2 : Main) fileMetrics tokens :
  callback "Calculating metrics..." w = Some (Resolved tt, w0) ->
  deps_calculateAllFileMetrics Pool deps files
    (config_tokenCount_encoding config) callback w0
  = Some (Resolved fileMetrics, w1) ->
  deps_calculateOutputMetrics Pool deps output
    (config_tokenCount_encoding config)
    (Some (config_output_filePath config)) w1
  = Some (Resolved tokens, w2) ->
  exists report,
    calculateMetrics files output callback config deps w
    = Some (Resolved report, w2)
    /\ totalTokens report = tokens
    /\ (forall p : string,
          String.eqb p "__proto__" = false ->
          fileCharCounts report !! p
          = fm_charCount
              <$> last (filter (fun fm => fm_path fm = p) fileMetrics)
          /\ fileTokenCounts report !! p
             = fm_tokenCount
                 <$> last (filter (fun fm => fm_path fm = p) fileMetrics))
    /\ fileCharCounts report !! "__proto__" = None
    /\ fileTokenCounts report !! "__proto__" = None.
Proof.
  intros Hcallback Hfiles Hout.
  eexists. split.
  - exact (calculateMetrics_run Pool files output callback config deps
             w w0 w1 w2 fileMetrics (Resolved tokens) Hcallback Hfiles Hout).
  - split; [reflexivity|]. split.
    + intros p Hp. apply fill_counts_lookup. exact Hp.
    + apply fill_counts_proto.
Qed.

(** X5.  Both collaborators are started before either result is used:
    when one of them rejects, [calculateMetrics] rejects as well, with
    the error of a collaborator that rejected, and both have run by then
    (a failure of the per-file counting does not keep the output count
    from running).  No report is returned. *)
Theorem report_fails_if_either_fails files output callback config deps
    (w w0 w1 w2 : Main) o1 o2 :
  callback "Calculating metrics..." w = Some (Resolved tt, w0) ->
  deps_calculateAllFileMetrics Pool deps files
    (config_tokenCount_encoding config) callback w0
  = Some (o1, w1) ->
  deps_calculateOutputMetrics Pool deps output
    (config_tokenCount_encoding config)
    (Some (config_output_filePath config)) w1
  = Some (o2, w2) ->
  is_rejected o1 || is_rejected o2 = true ->
  exists e,
    calculateMetrics files output callback config deps w
    = Some (Rejected e, w2)
    /\ (o1 = Rejected e \/ o2 = Rejected e).
Proof.
  intros Hcallback Hfiles Hout Hrejected.
  unfold Metrics.calculateMetrics. unfold bind at 1. rewrite Hcallback.
  unfold bind, promise_all2. rewrite Hfiles, Hout.
  destruct o1 as [fileMetrics|e1].
  - destruct o2 as [tokens|e2]; [discriminate|].
    exists e2. split; [reflexivity|]. right. reflexivity.
  - exists e1. split; [destruct o2; reflexivity|]. left. reflexivity.
Qed.

End Report.

(** *** The theorems on explicit inputs *)

Import Samples.

Lemma chunk_labels_identify_chunks_witness :
  nonempty "out.md" = true
  /\ NoDup (map task_path
              (imap (chunk_task "o200k_base" (Some "out.md")) ["ab"; "cd"; "e"])).
Proof.
  assert (Hlabel : nonempty "out.md" = true) by reflexivity.
  split; [exact Hlabel|].
  exact (proj1 (chunk_labels_identify_chunks "o200k_base" "out.md"
                  ["ab"; "cd"; "e"] Hlabel)).
Defined.

Lemma single_worker_count_witness :
  exists w',
    calculateOutputMetrics Worker "hello world" "cl100k_base" (Some "out.txt")
      (output_deps Worker single_worker_init (single_worker_run sample_encode))
      {| pool := busy_worker; log := [] |}
    = Some (Resolved 11, w')
    /\ tokenCounter (pool _ w') = Some (new_TokenCounter "o200k_base").
Proof.
  exact (single_worker_count sample_encode "hello world" "cl100k_base"
           (Some "out.txt") {| pool := busy_worker; log := [] |}
           (new_TokenCounter "o200k_base") eq_refl).
Defined.

Lemma report_keeps_last_record_witness :
  exists report w',
    calculateMetrics Worker same_path_twice "output" (report_progress Worker)
      sample_config sample_metrics_deps start_of_process
    = Some (Resolved report, w')
    /\ fileCharCounts report !! "README.md" = Some 5
    /\ fileCharCounts report !! "LICENSE" = None.
Proof.
  destruct (report_keeps_last_record Worker same_path_twice "output"
              (report_progress Worker) sample_config sample_metrics_deps
              start_of_process _ _ _ _ _ eq_refl eq_refl eq_refl)
    as (report & Hrun & _ & Hentries & _).
  exists report. eexists. split; [exact Hrun|]. split.
  - rewrite (proj1 (Hentries "README.md" eq_refl)). reflexivity.
  - rewrite (proj1 (Hentries "LICENSE" eq_refl)). reflexivity.
Defined.

Lemma report_fails_if_either_fails_witness :
  exists w',
    calculateMetrics Worker two_files "output" (report_progress Worker)
      sample_config failing_file_deps start_of_process
    = Some (Rejected (OtherError "file metrics failed"), w')
    /\ pool_events (log _ w')
       = [InitPiscina 1 worker_module;
          PoolRun (whole_task "output" "o200k_base" (Some "codecrawl-output.md"))].
Proof.
  destruct (report_fails_if_either_fails Worker two_files "output"
              (report_progress Worker) sample_config failing_file_deps
              start_of_process _ _ _ _ _ eq_refl eq_refl eq_refl eq_refl)
    as (e & Hrun & [He|Habs]); [|discriminate Habs].
  injection He as <-.
  eexists. split; [exact Hrun|]. reflexivity.
Defined.

End MetricsExtra.

(** ** The job client *)

Module ClientFacts.
Import Js Effect Client JsString JsStringFacts.
Local Open Scope effect_scope.

Section Service.

Variable JSON_stringify : Value -> string.
Variable Server : Type.
Variable on_post :
  string -> Object -> Object -> Server -> Outcome Response * Server.
Variable on_get : string -> Object -> Server -> Outcome Response * Server.
Variable this : CodecrawlApp.

Local Abbreviation World := (Client.World Server).
Local Abbreviation handleError := (Client.handleError JSON_stringify Server).
Local Abbreviation asyncGenerateLLMsText :=
  (Client.asyncGenerateLLMsText JSON_stringify Server on_post this).
Local Abbreviation checkGenerateLLMsTextStatus :=
  (Client.checkGenerateLLMsTextStatus JSON_stringify Server on_get this).
Local Abbreviation poll_loop := (Client.poll_loop JSON_stringify Server on_get this).
Local Abbreviation generateLLMsTxt :=
  (Client.generateLLMsTxt JSON_stringify Server on_post on_get this).
Local Abbreviation processing_for :=
  (Client.processing_for JSON_stringify Server on_get this).

Lemma asyncGenerateLLMsText_run url params (w : World) :
  let headers := prepareHeaders this None in
  let target := apiUrl this +:+ "/v1/llmstxt" in
  let body := with_url params url in
  let reply := on_post target body headers (server _ w) in
  exists o,
    asyncGenerateLLMsText url params w
    = Some (o, {| server := snd reply;
                  trace := trace _ w ++ [HttpPost target body headers] |})
    /\ match fst reply with
       | Resolved response =>
           if status response =? 200
           then o = Resolved (data response)
           else is_rejected o = true
       | Rejected _ => is_rejected o = true
       end.
Proof.
  intros headers target body reply.
  unfold Client.asyncGenerateLLMsText. fold headers target body.
  unfold bind at 1. unfold try_catch. unfold bind at 1.
  unfold postRequest, bind at 1, Client.emit at 1, on_server.
  cbn [server trace]. fold reply.
  destruct reply as [[response|error] s]; cbn [fst snd].
  - destruct (status response =? 200) eqn:Hstatus.
    + eexists. split; reflexivity.
    + unfold bind at 1. unfold Client.handleError.
      destruct (existsb _ _); unfold throw;
        unfold bind, response_data, response_status, lift, throw, ret; simpl;
        eexists; split; reflexivity.
  - cbv beta iota delta [bind response_data response_status lift throw ret].
    destruct (exn_get error "response") as [response|e] eqn:Hresp;
      [|eexists; split; reflexivity].
    destruct (truthy (prop (prop response "data") "error"));
      destruct (member response "status");
      eexists; split; reflexivity.
Qed.

Lemma handleError_run response action (w : World) :
  exists message details,
    handleError response action w
    = Some (Rejected (CodecrawlError message (Num (status response)) details), w)
    /\ if existsb (Z.eqb (status response)) [400; 402; 408; 409; 500]
       then
         details = get (data response) "details"
         /\ message
            = "Failed to " +:+ action +:+ ". Status code: "
              +:+ of_Z (status response) +:+ ". Error: "
              +:+ to_string (logical_or (get (data response) "error")
                                (Str "unknown error occured"))
              +:+ (if truthy (get (data response) "details")
                   then "- " +:+ JSON_stringify (get (data response) "details")
                   else EmptyString)
       else
         details = Undefined
         /\ message
            = "Unexpected error occurred while " +:+ action
              +:+ ". Status code: " +:+ of_Z (status response) +:+ ".".
Proof.
  unfold Client.handleError.
  replace (existsb (Z.eqb (status response)) handled_statuses)
    with (existsb (Z.eqb (status response)) [400; 402; 408; 409; 500])
    by (unfold handled_statuses; simpl;
        destruct (status response =? 400), (status response =? 402),
                 (status response =? 408), (status response =? 409),
                 (status response =? 500); reflexivity).
  destruct (existsb _ _); eexists; eexists; (split; [reflexivity|]);
    split; reflexivity.
Qed.

(** C10.  For every response and action, [handleError] throws a
    [CodecrawlError] that carries the status code and does not return: for
    the statuses 400, 402, 408, 409 and 500 the message holds the action,
    the status code, the error text of the server and its details (each
    when the server supplied one); for any other status the message is the
    generic one with the status code.  So [asyncGenerateLLMsText] makes
    one request and either returns the body of an HTTP-200 response or
    throws. *)
Theorem handleError_always_throws response action url params (w : World) :
  (exists message details,
     handleError response action w
     = Some (Rejected (CodecrawlError message (Num (status response)) details), w)
     /\ includes message (of_Z (status response))
     /\ if existsb (Z.eqb (status response)) [400; 402; 408; 409; 500]
        then
          details = get (data response) "details"
          /\ includes message ("Failed to " +:+ action)
          /\ (truthy (get (data response) "error") = true ->
              includes message (to_string (get (data response) "error")))
          /\ (truthy (get (data response) "details") = true ->
              includes message (JSON_stringify (get (data response) "details")))
        else
          message
          = "Unexpected error occurred while " +:+ action
            +:+ ". Status code: " +:+ of_Z (status response) +:+ ".")
  /\ (let headers := prepareHeaders this None in
      let target := apiUrl this +:+ "/v1/llmstxt" in
      let body := with_url params url in
      let reply := on_post target body headers (server _ w) in
      exists o,
        asyncGenerateLLMsText url params w
        = Some (o, {| server := snd reply;
                      trace := trace _ w ++ [HttpPost target body headers] |})
        /\ match fst reply with
           | Resolved posted =>
               if status posted =? 200
               then o = Resolved (data posted)
               else is_rejected o = true
           | Rejected _ => is_rejected o = true
           end).
Proof.
  split; [|apply asyncGenerateLLMsText_run].
  destruct (handleError_run response action w)
    as (message & details & Hrun & Hshape).
  exists message, details. split; [exact Hrun|].
  destruct (existsb _ _).
  - destruct Hshape as [-> ->]. split; [|split; [reflexivity|split; [|split]]].
    + exists ("Failed to " +:+ action +:+ ". Status code: ").
      eexists. rewrite !append_assoc. reflexivity.
    + exists EmptyString. eexists. rewrite !append_assoc. reflexivity.
    + intros Herror. unfold logical_or. rewrite Herror.
      exists ("Failed to " +:+ action +:+ ". Status code: "
              +:+ of_Z (status response) +:+ ". Error: ").
      eexists. rewrite !append_assoc. reflexivity.
    + intros Hdetails. rewrite Hdetails.
      exists ("Failed to " +:+ action +:+ ". Status code: "
              +:+ of_Z (status response) +:+ ". Error: "
              +:+ to_string (logical_or (get (data response) "error")
                                (Str "unknown error occured"))
              +:+ "- "), EmptyString.
      rewrite append_nil_r, !append_assoc. reflexivity.
  - destruct Hshape as [-> ->]. split; [|reflexivity].
    exists ("Unexpected error occurred while " +:+ action +:+ ". Status code: ").
    eexists. rewrite !append_assoc. reflexivity.
Qed.

(** *** One poll *)

Lemma getRequest_receives url headers (w : World) reply s r :
  on_get url headers (server _ w) = (reply, s) ->
  receives reply r ->
  getRequest Server on_get url headers w
  = Some (Resolved (Some r),
          {| server := s; trace := trace _ w ++ [HttpGet url headers] |}).
Proof.
  intros Hreply Hreceives.
  unfold getRequest, try_catch, bind, Client.emit, on_server, ret.
  cbn [server trace]. rewrite Hreply.
  destruct Hreceives as [-> | [message ->]]; reflexivity.
Qed.

(** A poll that gets HTTP 200 returns the body. *)
Lemma poll_200 id (w : World) reply s r :
  let headers := prepareHeaders this None in
  let target := apiUrl this +:+ "/v1/llmstxt/" +:+ id in
  on_get target headers (server _ w) = (reply, s) ->
  receives reply r ->
  status r = 200 ->
  checkGenerateLLMsTextStatus id w
  = Some (Resolved (data r),
          {| server := s; trace := trace _ w ++ [HttpGet target headers] |}).
Proof.
  intros headers target Hreply Hreceives Hstatus.
  unfold Client.checkGenerateLLMsTextStatus. fold headers target.
  unfold bind at 1. unfold try_catch. unfold bind at 1.
  rewrite (getRequest_receives _ _ _ _ _ _ Hreply Hreceives).
  rewrite Hstatus. reflexivity.
Qed.

(** A poll that gets HTTP 404 throws "job not found"; the error that
    leaves the method has been wrapped by its own [catch] and carries the
    status code 500. *)
Lemma poll_404 id (w : World) reply s r :
  let headers := prepareHeaders this None in
  let target := apiUrl this +:+ "/v1/llmstxt/" +:+ id in
  on_get target headers (server _ w) = (reply, s) ->
  receives reply r ->
  status r = 404 ->
  checkGenerateLLMsTextStatus id w
  = Some (Rejected (CodecrawlError "LLMs.txt generation job not found"
                      (Num 500) Undefined),
          {| server := s; trace := trace _ w ++ [HttpGet target headers] |}).
Proof.
  intros headers target Hreply Hreceives Hstatus.
  unfold Client.checkGenerateLLMsTextStatus. fold headers target.
  unfold bind at 1. unfold try_catch. unfold bind at 1.
  rewrite (getRequest_receives _ _ _ _ _ _ Hreply Hreceives).
  rewrite Hstatus. reflexivity.
Qed.

(** Every call makes one request, whatever the answer. *)
Lemma checkGenerateLLMsTextStatus_one_request id (w : World) :
  let headers := prepareHeaders this None in
  let target := apiUrl this +:+ "/v1/llmstxt/" +:+ id in
  exists o,
    checkGenerateLLMsTextStatus id w
    = Some (o, {| server := snd (on_get target headers (server _ w));
                  trace := trace _ w ++ [HttpGet target headers] |}).
Proof.
  intros headers target.
  unfold Client.checkGenerateLLMsTextStatus. fold headers target.
  unfold bind at 1. unfold try_catch. unfold bind at 1.
  unfold getRequest, try_catch, bind at 1, Client.emit at 1.
  unfold bind at 1, on_server. cbn [server trace].
  destruct (on_get target headers (server _ w)) as [[response|error] s];
    cbn [fst snd ret].
  - destruct (status response =? 200); [eexists; reflexivity|].
    destruct (status response =? 404).
    + eexists; reflexivity.
    + unfold bind at 1. unfold Client.handleError.
      destruct (existsb _ _); eexists; reflexivity.
  - destruct error as [m sc d|m [response|]|m|m|v].
    + eexists; reflexivity.
    + cbn [ret].
      destruct (status response =? 200); [eexists; reflexivity|].
      destruct (status response =? 404); [eexists; reflexivity|].
      unfold bind at 1. unfold Client.handleError.
      destruct (existsb _ _); eexists; reflexivity.
    + eexists; reflexivity.
    + eexists; reflexivity.
    + eexists; reflexivity.
    + cbv beta iota delta [throw bind response_data response_status lift ret].
      destruct (exn_get (NonError v) "response") as [response|e];
        [|eexists; reflexivity].
      destruct (truthy (prop (prop response "data") "error")).
      * destruct (member response "status"); eexists; reflexivity.
      * destruct (exn_get (NonError v) "message"); eexists; reflexivity.
Qed.

(** *** The polling loop *)

Lemma poll_loop_rejected jobId fuel (w w1 : World) e :
  checkGenerateLLMsTextStatus (to_string jobId) w = Some (Rejected e, w1) ->
  poll_loop (S fuel) jobId w = Some (Rejected e, w1).
Proof.
  intros Hpoll. cbn [Client.poll_loop]. unfold bind at 1.
  rewrite Hpoll. reflexivity.
Qed.

Lemma poll_loop_processing jobId fuel (w w1 : World) gs :
  checkGenerateLLMsTextStatus (to_string jobId) w = Some (Resolved gs, w1) ->
  is_error_response gs = false ->
  is_string (get gs "status") "processing" = true ->
  poll_loop (S fuel) jobId w
  = poll_loop fuel jobId
      {| server := server _ w1; trace := trace _ w1 ++ [Sleep 2000] |}.
Proof.
  intros Hpoll Herror Hprocessing. cbn [Client.poll_loop]. unfold bind at 1.
  unfold is_error_response in Herror. rewrite Hpoll, Herror.
  destruct (get gs "status") as [| |b|z|status|fields]; try discriminate.
  simpl in Hprocessing. apply String.eqb_eq in Hprocessing. subst status.
  reflexivity.
Qed.

Lemma poll_loop_completed jobId fuel (w w1 : World) gs :
  checkGenerateLLMsTextStatus (to_string jobId) w = Some (Resolved gs, w1) ->
  is_string (get gs "status") "completed" = true ->
  poll_loop (S fuel) jobId w = Some (Resolved (Returned gs), w1).
Proof.
  intros Hpoll Hcompleted. cbn [Client.poll_loop]. unfold bind at 1.
  rewrite Hpoll, Hcompleted.
  destruct (has gs "error" && negb (truthy (get gs "success"))); reflexivity.
Qed.

(** When a poll returns a body whose status is none of processing,
    completed and failed, the loop ends at that poll, whatever fuel is
    left: by a [return] of the body when it is an error response, and by
    the [break] otherwise. *)
Lemma poll_loop_unexpected_status jobId fuel (w w1 : World) gs :
  checkGenerateLLMsTextStatus (to_string jobId) w = Some (Resolved gs, w1) ->
  is_string (get gs "status") "processing" = false ->
  is_string (get gs "status") "completed" = false ->
  is_string (get gs "status") "failed" = false ->
  poll_loop (S fuel) jobId w
  = Some (Resolved (if has gs "error" && negb (truthy (get gs "success"))
                    then Returned gs
                    else Broke gs), w1).
Proof.
  intros Hpoll Hprocessing Hcompleted Hfailed.
  cbn [Client.poll_loop]. unfold bind at 1.
  rewrite Hpoll, Hprocessing, Hcompleted, Hfailed.
  destruct (has gs "error" && negb (truthy (get gs "success"))); reflexivity.
Qed.

(** When [n] polls find the job processing and the next one finds it
    completed, the loop returns the completed body as soon as it has fuel
    for [n + 1] rounds; it has then made [n + 1] requests, with a delay of
    two seconds after each of the first [n]. *)
Lemma poll_loop_completes jobId n (w : World) final w' :
  completes_after JSON_stringify Server on_get this jobId n w final w' ->
  forall fuel, (n < fuel)%nat ->
    poll_loop fuel jobId w = Some (Resolved (Returned final), w').
Proof.
  induction 1 as [w final w' Hpoll Herror Hcompleted
                 |n w gs w1 final w' Hpoll Herror Hprocessing Hrest IH];
    intros fuel Hfuel; (destruct fuel as [|fuel]; [lia|]).
  - apply poll_loop_completed; assumption.
  - rewrite (poll_loop_processing _ _ _ _ _ Hpoll Herror Hprocessing).
    apply IH. lia.
Qed.

Lemma completes_after_trace jobId n (w : World) final w' :
  completes_after JSON_stringify Server on_get this jobId n w final w' ->
  let request :=
    HttpGet (apiUrl this +:+ "/v1/llmstxt/" +:+ to_string jobId)
            (prepareHeaders this None) in
  trace _ w'
  = trace _ w ++ concat (repeat [request; Sleep 2000] n) ++ [request].
Proof.
  intros Hrun request.
  induction Hrun as [w final w' Hpoll _ _
                    |n w gs w1 final w' Hpoll _ _ _ IH].
  - destruct (checkGenerateLLMsTextStatus_one_request (to_string jobId) w)
      as (o & Hone).
    rewrite Hone in Hpoll. injection Hpoll as _ <-. reflexivity.
  - destruct (checkGenerateLLMsTextStatus_one_request (to_string jobId) w)
      as (o & Hone).
    rewrite Hone in Hpoll. injection Hpoll as _ <-.
    rewrite IH. cbn [trace repeat concat]. rewrite <- !app_assoc. reflexivity.
Qed.

(** *** The whole run *)

(** When the answer to the submission has a truthy [success], the run
    ends there with an error response, and no poll is made. *)
Lemma generateLLMsTxt_success_flag fuel url params (w : World) posted s :
  let headers := prepareHeaders this None in
  let target := apiUrl this +:+ "/v1/llmstxt" in
  let body := with_url params url in
  on_post target body headers (server _ w) = (Resolved posted, s) ->
  status posted = 200 ->
  truthy (get (data posted) "success") = true ->
  generateLLMsTxt fuel url params w
  = Some (Resolved (ErrorResponse
                      (if has (data posted) "error"
                       then get (data posted) "error"
                       else Str "unknown error")),
          {| server := s; trace := trace _ w ++ [HttpPost target body headers] |}).
Proof.
  intros headers target body Hpost Hstatus Hsuccess.
  destruct (asyncGenerateLLMsText_run url params w) as (o & Hrun & Ho).
  fold headers target body in Hrun, Ho. rewrite Hpost in Hrun, Ho.
  cbn [fst snd] in Hrun, Ho.
  rewrite Hstatus in Ho. simpl in Ho. subst o.
  unfold Client.generateLLMsTxt, try_catch. unfold bind at 1.
  rewrite Hrun, Hsuccess. reflexivity.
Qed.

(** When the answer to the submission has no truthy [success], no
    [error] field and a job id, the run polls that job until it is
    completed and returns the completed body. *)
Lemma generateLLMsTxt_polls_until_completed
    fuel url params (w : World) posted s n final w' :
  let headers := prepareHeaders this None in
  let target := apiUrl this +:+ "/v1/llmstxt" in
  let body := with_url params url in
  on_post target body headers (server _ w) = (Resolved posted, s) ->
  status posted = 200 ->
  truthy (get (data posted) "success") = false ->
  has (data posted) "error" = false ->
  truthy (get (data posted) "id") = true ->
  completes_after JSON_stringify Server on_get this
    (get (data posted) "id") n
    {| server := s; trace := trace _ w ++ [HttpPost target body headers] |}
    final w' ->
  (n < fuel)%nat ->
  generateLLMsTxt fuel url params w = Some (Resolved final, w').
Proof.
  intros headers target body Hpost Hstatus Hsuccess Herror Hid Hpolls Hfuel.
  destruct (asyncGenerateLLMsText_run url params w) as (o & Hrun & Ho).
  fold headers target body in Hrun, Ho. rewrite Hpost in Hrun, Ho.
  cbn [fst snd] in Hrun, Ho.
  rewrite Hstatus in Ho. simpl in Ho. subst o.
  unfold Client.generateLLMsTxt, try_catch. unfold bind at 1.
  rewrite Hrun, Hsuccess, Herror, Hid. cbn [orb negb]. unfold bind at 1.
  rewrite (poll_loop_completes _ _ _ _ _ Hpolls fuel Hfuel). reflexivity.
Qed.

(** *** The loop, round by round *)

Lemma poll_loop_step fuel jobId (w : World) :
  poll_loop (S fuel) jobId w
  = match checkGenerateLLMsTextStatus (to_string jobId) w with
    | Some (Resolved gs, w1) =>
        if is_error_response gs
        then Some (Resolved (Returned gs), w1)
        else if is_string (get gs "status") "completed"
        then Some (Resolved (Returned gs), w1)
        else if is_string (get gs "status") "failed"
        then Some (Rejected
                     (CodecrawlError
                        ("LLMs.txt generation failed. Status code: "
                         +:+ to_string (get gs "status") +:+ ". Error: "
                         +:+ to_string (get gs "error"))
                        (get gs "statusCode") Undefined), w1)
        else if negb (is_string (get gs "status") "processing")
        then Some (Resolved (Broke gs), w1)
        else poll_loop fuel jobId
               {| server := server _ w1; trace := trace _ w1 ++ [Sleep 2000] |}
    | Some (Rejected e, w1) => Some (Rejected e, w1)
    | None => None
    end.
Proof.
  cbn [Client.poll_loop]. unfold bind at 1.
  destruct (checkGenerateLLMsTextStatus (to_string jobId) w)
    as [[[gs|e] w1]|]; try reflexivity.
  unfold is_error_response.
  destruct (has gs "error" && negb (truthy (get gs "success"))); [reflexivity|].
  destruct (is_string (get gs "status") "completed"); [reflexivity|].
  destruct (is_string (get gs "status") "failed"); [reflexivity|].
  destruct (negb (is_string (get gs "status") "processing")); reflexivity.
Qed.

Lemma poll_loop_after_processing jobId n (w w' : World) :
  processing_for jobId n w w' ->
  forall fuel, poll_loop (n + fuel) jobId w = poll_loop fuel jobId w'.
Proof.
  induction 1 as [w|n w gs w1 w' Hpoll Herror Hprocessing _ IH]; intros fuel.
  - reflexivity.
  - change (S n + fuel)%nat with (S (n + fuel)).
    rewrite poll_loop_step, Hpoll, Herror.
    destruct (get gs "status") as [| |b|z|st|fields]; try discriminate.
    simpl in Hprocessing. apply String.eqb_eq in Hprocessing. subst st.
    simpl. apply IH.
Qed.

Lemma processing_for_trace jobId n (w w' : World) :
  processing_for jobId n w w' ->
  trace _ w'
  = trace _ w
    ++ concat (repeat [HttpGet (apiUrl this +:+ "/v1/llmstxt/"
                                +:+ to_string jobId)
                               (prepareHeaders this None);
                       Sleep 2000] n).
Proof.
  induction 1 as [w|n w gs w1 w' Hpoll _ _ _ IH].
  - simpl. rewrite app_nil_r. reflexivity.
  - destruct (checkGenerateLLMsTextStatus_one_request (to_string jobId) w)
      as (o & Hone).
    rewrite Hone in Hpoll. injection Hpoll as _ <-.
    rewrite IH. cbn [trace repeat concat]. rewrite <- !app_assoc. reflexivity.
Qed.

(** After an answer that lets the polling start, the run is the loop on
    the job of the answer, inside the [try] of [generateLLMsTxt]. *)
Lemma run_after_submission fuel url params (w : World) posted s :
  on_post (apiUrl this +:+ "/v1/llmstxt") (with_url params url)
          (prepareHeaders this None) (server _ w)
  = (Resolved posted, s) ->
  starts_polling posted ->
  generateLLMsTxt fuel url params w
  = try_catch
      (let! exit := poll_loop fuel (get (data posted) "id") in
       ret (after_loop exit))
      (fun error =>
         let! message := lift (exn_get error "message") in
         let! details := response_data Server error "details" in
         throw (CodecrawlError (Error_message message) (Num 500) details))
      {| server := s;
         trace := trace _ w
                  ++ [HttpPost (apiUrl this +:+ "/v1/llmstxt")
                               (with_url params url)
                               (prepareHeaders this None)] |}.
Proof.
  intros Hpost (Hstatus & Hsuccess & Herror & Hid).
  destruct (asyncGenerateLLMsText_run url params w) as (o & Hrun & Ho).
  rewrite Hpost in Hrun, Ho. cbn [fst snd] in Hrun, Ho.
  rewrite Hstatus in Ho. simpl in Ho. subst o.
  unfold Client.generateLLMsTxt, try_catch. unfold bind at 1.
  rewrite Hrun, Hsuccess, Herror, Hid. reflexivity.
Qed.

(** C9, as the code has it.  For every polling run, when a poll returns
    a body whose status is none of processing, completed and failed,
    [generateLLMsTxt] ends at that poll, without a further request or
    delay, whatever fuel is left: it returns the body itself when the
    body is an error response (it has an [error] field and [success] is
    not truthy), and otherwise the explicit failure "LLMs.txt generation
    ended with unexpected status", which names the status.  The requests
    of the run are the submission and the polls up to that one. *)
Theorem unexpected_status_ends_polling
    fuel url params (w : World) posted s n w2 gs w3 :
  on_post (apiUrl this +:+ "/v1/llmstxt") (with_url params url)
          (prepareHeaders this None) (server _ w)
  = (Resolved posted, s) ->
  starts_polling posted ->
  processing_for (get (data posted) "id") n
    {| server := s;
       trace := trace _ w
                ++ [HttpPost (apiUrl this +:+ "/v1/llmstxt")
                             (with_url params url)
                             (prepareHeaders this None)] |} w2 ->
  checkGenerateLLMsTextStatus (to_string (get (data posted) "id")) w2
  = Some (Resolved gs, w3) ->
  is_string (get gs "status") "processing" = false ->
  is_string (get gs "status") "completed" = false ->
  is_string (get gs "status") "failed" = false ->
  (n < fuel)%nat ->
  let poll :=
    HttpGet (apiUrl this +:+ "/v1/llmstxt/"
             +:+ to_string (get (data posted) "id"))
            (prepareHeaders this None) in
  generateLLMsTxt fuel url params w
  = Some (Resolved
            (if has gs "error" && negb (truthy (get gs "success"))
             then gs
             else ErrorResponse
                    (Str ("LLMs.txt generation ended with unexpected status: "
                          +:+ to_string (coalesce (get gs "status")
                                                  (Str "unknown"))))),
          w3)
  /\ trace _ w3
     = trace _ w
       ++ [HttpPost (apiUrl this +:+ "/v1/llmstxt") (with_url params url)
                    (prepareHeaders this None)]
       ++ concat (repeat [poll; Sleep 2000] n) ++ [poll].
Proof.
  intros Hpost Hstart Hprocessing Hpoll Hnot_processing Hnot_completed
    Hnot_failed Hfuel poll.
  split.
  - rewrite (run_after_submission fuel url params w posted s Hpost Hstart).
    unfold try_catch. unfold bind at 1.
    replace fuel with (n + S (fuel - n - 1))%nat by lia.
    rewrite (poll_loop_after_processing _ _ _ _ Hprocessing).
    rewrite (poll_loop_unexpected_status _ _ _ _ _ Hpoll Hnot_processing
               Hnot_completed Hnot_failed).
    destruct (has gs "error" && negb (truthy (get gs "success")));
      reflexivity.
  - destruct (checkGenerateLLMsTextStatus_one_request
                (to_string (get (data posted) "id")) w2) as (o & Hone).
    rewrite Hone in Hpoll. injection Hpoll as _ <-.
    cbn [trace]. rewrite (processing_for_trace _ _ _ _ Hprocessing).
    cbn [trace]. rewrite <- !app_assoc. reflexivity.
Qed.

End Service.

(** *** The scenarios of the specification, run on the scripted service *)

Import Samples.

(** With a submission answer that has no [success] field the run polls
    three times, two seconds apart, and returns the completed status. *)
Example bare_id_run_polls_until_completed :
  exists w',
    run_generateLLMsTxt 3 completes_on_third_poll_bare_id
    = Some (Resolved completed, w')
    /\ List.tl (trace _ w')
       = [HttpGet poll_url poll_headers; Sleep 2000;
          HttpGet poll_url poll_headers; Sleep 2000;
          HttpGet poll_url poll_headers].
Proof. eexists. split; vm_compute; reflexivity. Qed.

(** C1 fails on the code.  In the scenario of the specification (the
    submission is answered with HTTP 200, [success: true] and the job id;
    two polls would find the job processing and the third completed)
    [generateLLMsTxt] returns [{ success: false, error: 'unknown error' }]
    whatever the fuel, and makes no poll: the answers of the service stay
    unread. *)
Theorem accepted_submission_ends_as_unknown_error fuel :
  exists w',
    run_generateLLMsTxt fuel completes_on_third_poll
    = Some (Resolved (ErrorResponse (Str "unknown error")), w')
    /\ polls (trace _ w') = []
    /\ get_replies (server _ w') = [ok processing; ok processing; ok completed].
Proof. eexists. split; [|split]; vm_compute; reflexivity. Qed.

(** C7 fails on the code.  A poll answered with HTTP 404 throws the "job
    not found" failure, but the error that reaches the caller carries the
    status code 500, from [checkGenerateLLMsTextStatus] as from
    [generateLLMsTxt]; one poll is made and the next answer of the service
    stays unread. *)
Theorem job_not_found_carries_status_500 fuel :
  (exists w',
     run_checkStatus job_not_found
     = Some (Rejected (CodecrawlError "LLMs.txt generation job not found"
                         (Num 500) Undefined), w')
     /\ polls (trace _ w') = [HttpGet poll_url poll_headers])
  /\ (exists w',
        run_generateLLMsTxt (S fuel) job_not_found
        = Some (Rejected (CodecrawlError "LLMs.txt generation job not found"
                            (Num 500) Undefined), w')
        /\ polls (trace _ w') = [HttpGet poll_url poll_headers]
        /\ get_replies (server _ w') = [ok completed]).
Proof.
  split; eexists; (split; [|try split]); vm_compute; reflexivity.
Qed.

(** C9 as stated fails: a poll answered with an error body, whose status
    is not one the client knows, ends the run with that body and not with
    the "unexpected status" failure. *)
Lemma error_body_is_returned_as_it_is :
  ~ (forall (s : Script) body rest o w',
       post_reply s = ok [("id", Str "job-123")] ->
       get_replies s = ok body :: rest ->
       is_string (get body "status") "processing" = false ->
       is_string (get body "status") "completed" = false ->
       is_string (get body "status") "failed" = false ->
       run_generateLLMsTxt 10 s = Some (o, w') ->
       o = Resolved (unexpected_status body)).
Proof.
  intros Hclaim.
  specialize (Hclaim poll_answers_error poll_error_body _ _ _
                eq_refl eq_refl eq_refl eq_refl eq_refl eq_refl).
  vm_compute in Hclaim. discriminate Hclaim.
Qed.

Lemma ready_to_poll :
  starts_polling {| status := 200; data := [("id", Str "job-123")] |}.
Proof. repeat split. Defined.

Lemma unexpected_status_ends_polling_witness :
  exists w',
    run_generateLLMsTxt 5 queued_on_second_poll
    = Some (Resolved
              (ErrorResponse
                 (Str "LLMs.txt generation ended with unexpected status: queued")),
            w')
    /\ trace _ w'
       = [HttpPost "https://api.irere.dev/v1/llmstxt"
                   [("url", Str repository)] poll_headers;
          HttpGet poll_url poll_headers; Sleep 2000;
          HttpGet poll_url poll_headers]
    /\ get_replies (server _ w') = [ok completed].
Proof.
  eassert (Hprocessing :
    processing_for sample_stringify Script script_get sample_app
      (Str "job-123") 1
      {| server := queued_on_second_poll;
         trace := [HttpPost (apiUrl sample_app +:+ "/v1/llmstxt")
                            (with_url None repository)
                            (prepareHeaders sample_app None)] |} _).
  { eapply processing_more; [reflexivity | reflexivity | reflexivity |].
    apply processing_done. }
  destruct (unexpected_status_ends_polling sample_stringify Script script_post
              script_get sample_app 5 repository None
              (start_of_run queued_on_second_poll) _ _ 1 _ queued _
              eq_refl ready_to_poll Hprocessing eq_refl eq_refl eq_refl
              eq_refl ltac:(lia)) as [Hrun Htrace].
  eexists. split; [exact Hrun|]. split; [exact Htrace | reflexivity].
Defined.

End ClientFacts.
(** ** More on the job client *)

Module ClientExtra.
Import Js Effect Client JsString JsStringFacts ClientFacts.
Local Open Scope effect_scope.

(** *** The constructor *)

Lemma starts_with_spec s : forall p,
  starts_with s p = true <-> exists post, s = String.append p post.
Proof.
  induction s as [|a s IH]; intros [|b p]; simpl.
  - split; [exists EmptyString; reflexivity | reflexivity].
  - split; [discriminate | intros [post H]; discriminate H].
  - split; [exists (String a s); reflexivity | reflexivity].
  - rewrite andb_true_iff, IH. split.
    + intros [Hab [post ->]]. apply Ascii.eqb_eq in Hab. subst b.
      exists post. reflexivity.
    + intros [post H]. rewrite append_cons in H. injection H as -> ->.
      split; [apply Ascii.eqb_refl | exists post; reflexivity].
Qed.

(** [includesb] decides [includes]. *)
Lemma includesb_spec s : forall t, includesb s t = true <-> includes s t.
Proof.
  induction s as [|a s IH]; intros t; cbn [includesb];
    rewrite orb_true_iff, starts_with_spec.
  - split.
    + intros [[post H]|H]; [|discriminate].
      exists EmptyString, post. exact H.
    + intros ([|b pre] & post & H).
      * left. exists post. exact H.
      * rewrite append_cons in H. discriminate H.
  - rewrite IH. split.
    + intros [[post H]|(pre & post & ->)].
      * exists EmptyString, post. exact H.
      * exists (String a pre), post. reflexivity.
    + intros ([|b pre] & post & H).
      * left. exists post. exact H.
      * rewrite append_cons in H. injection H as -> ->.
        right. exists pre, post. reflexivity.
Qed.

(** X6.  The constructor fails exactly when the base URL (the given one,
    or the default when none or an empty one is given) names the cloud
    service and no API key is given, with the error 'No API key provided'
    and the code 401; a key is needed in particular when no URL is given.
    Otherwise the instance holds the base URL, which is never empty, and
    the given key, or an empty key when none is given. *)
Theorem new_CodecrawlApp_needs_key_for_cloud config :
  let baseUrl := string_or (config_apiUrl config) default_apiUrl in
  (config_apiUrl config = None -> includes baseUrl "api.irere.dev")
  /\ match new_CodecrawlApp config with
     | Rejected e =>
         e = CodecrawlError "No API key provided" (Num 401) Undefined
         /\ includes baseUrl "api.irere.dev"
         /\ config_apiKey config = None
     | Resolved app =>
         apiUrl app = baseUrl
         /\ nonempty (apiUrl app) = true
         /\ apiKey app = string_or (config_apiKey config) EmptyString
         /\ (includes baseUrl "api.irere.dev" ->
             exists key, config_apiKey config = Some key)
     end.
Proof.
  intros baseUrl. split.
  - intros Hnone. unfold baseUrl. rewrite Hnone.
    apply includesb_spec. reflexivity.
  - assert (Hbase : nonempty baseUrl = true).
    { unfold baseUrl, string_or.
      destruct (config_apiUrl config) as [[|a u]|]; reflexivity. }
    assert (Hagain : string_or (config_apiUrl config) baseUrl = baseUrl).
    { unfold baseUrl, string_or.
      destruct (config_apiUrl config) as [[|a u]|]; reflexivity. }
    unfold new_CodecrawlApp. fold baseUrl. unfold isCloudService.
    destruct (includesb baseUrl "api.irere.dev") eqn:Hcloud.
    + apply includesb_spec in Hcloud.
      destruct (config_apiKey config) as [key|]; simpl.
      * rewrite Hagain. repeat split; try assumption. intros _. exists key.
        reflexivity.
      * repeat split; assumption.
    + simpl. rewrite Hagain. repeat split; try assumption.
      intros Hcloud'. apply includesb_spec in Hcloud'. congruence.
Qed.

(** *** The body of the submission *)

Lemma get_set_same o : forall k v, get (set o k v) k = v.
Proof.
  induction o as [|[k' v'] o IH]; intros k v; simpl.
  - rewrite String.eqb_refl. reflexivity.
  - destruct (String.eqb k k') eqn:Hk; simpl; rewrite Hk; [reflexivity|].
    apply IH.
Qed.

Lemma get_set_other o : forall k k' v, k' <> k -> get (set o k v) k' = get o k'.
Proof.
  induction o as [|[k0 v0] o IH]; intros k k' v Hne; simpl.
  - apply String.eqb_neq in Hne. rewrite Hne. reflexivity.
  - destruct (String.eqb k k0) eqn:Hk; simpl.
    + apply String.eqb_eq in Hk. subst k0.
      apply String.eqb_neq in Hne. rewrite Hne. reflexivity.
    + destruct (String.eqb k' k0); [reflexivity|]. apply IH. exact Hne.
Qed.

Lemma has_set_other o : forall k k' v, k' <> k -> has (set o k v) k' = has o k'.
Proof.
  induction o as [|[k0 v0] o IH]; intros k k' v Hne; simpl.
  - apply String.eqb_neq in Hne. rewrite Hne. reflexivity.
  - destruct (String.eqb k k0) eqn:Hk; simpl.
    + apply String.eqb_eq in Hk. subst k0.
      apply String.eqb_neq in Hne. rewrite Hne. reflexivity.
    + destruct (String.eqb k' k0); [reflexivity|]. apply IH. exact Hne.
Qed.

(** X7.  The body of the submission carries the [url] argument under
    [url], also when the parameters have a [url] of their own, and every
    other parameter as it was given; without parameters it holds the url
    alone. *)
Theorem submission_body_carries_url params url :
  get (with_url params url) "url" = Str url
  /\ (forall k, k <> "url" ->
        get (with_url params url) k
        = get (match params with Some o => o | None => [] end) k
        /\ has (with_url params url) k
           = has (match params with Some o => o | None => [] end) k)
  /\ with_url None url = [("url", Str url)].
Proof.
  unfold with_url. split; [apply get_set_same|]. split; [|reflexivity].
  intros k Hk. split; [apply get_set_other | apply has_set_other]; exact Hk.
Qed.

Section Service.

Variable JSON_stringify : Value -> string.
Variable Server : Type.
Variable on_post :
  string -> Object -> Object -> Server -> Outcome Response * Server.
Variable on_get : string -> Object -> Server -> Outcome Response * Server.
Variable this : CodecrawlApp.

Local Abbreviation World := (Client.World Server).
Local Abbreviation handleError := (Client.handleError JSON_stringify Server).
Local Abbreviation asyncGenerateLLMsText :=
  (Client.asyncGenerateLLMsText JSON_stringify Server on_post this).
Local Abbreviation checkGenerateLLMsTextStatus :=
  (Client.checkGenerateLLMsTextStatus JSON_stringify Server on_get this).
Local Abbreviation poll_loop := (Client.poll_loop JSON_stringify Server on_get this).
Local Abbreviation generateLLMsTxt :=
  (Client.generateLLMsTxt JSON_stringify Server on_post on_get this).
Local Abbreviation processing_for :=
  (Client.processing_for JSON_stringify Server on_get this).

Local Abbreviation poll_loop_step :=
  (ClientFacts.poll_loop_step JSON_stringify Server on_get this).
Local Abbreviation poll_loop_after_processing :=
  (ClientFacts.poll_loop_after_processing JSON_stringify Server on_get this).
Local Abbreviation run_after_submission :=
  (ClientFacts.run_after_submission JSON_stringify Server on_post on_get this).

(** The world after the submission. *)
Local Abbreviation submitted_world w url params s :=
  ({| server := s;
      trace := trace Server w
               ++ [HttpPost (apiUrl this +:+ "/v1/llmstxt")
                            (with_url params url) (prepareHeaders this None)] |}).

(** *** Failures of the submission *)

(** X8.  When axios rejects the submission with a response, that is for
    a status outside 2xx, [asyncGenerateLLMsText] throws a
    [CodecrawlError] that carries the status of the response: its message
    names the status and the error text of the body when the body has
    one, and is the generic message with the status otherwise. *)
Theorem refused_submission_carries_status url params (w : World) m r s :
  on_post (apiUrl this +:+ "/v1/llmstxt") (with_url params url)
          (prepareHeaders this None) (server _ w)
  = (Rejected (AxiosError m (Some r)), s) ->
  asyncGenerateLLMsText url params w
  = Some (Rejected
            (CodecrawlError
               (if truthy (get (data r) "error")
                then "Failed to start LLMs.txt generation. Status code: "
                     +:+ of_Z (status r) +:+ ". Error: "
                     +:+ to_string (get (data r) "error")
                else "Unexpected error occurred while starting LLMs.txt generation. Status code: "
                     +:+ of_Z (status r) +:+ ".")
               (Num (status r)) Undefined),
          submitted_world w url params s).
Proof.
  intros Hpost.
  unfold Client.asyncGenerateLLMsText.
  unfold bind at 1. unfold try_catch. unfold bind at 1.
  unfold postRequest, bind at 1, Client.emit at 1, on_server.
  cbn [server trace]. rewrite Hpost.
  cbv beta iota delta [bind response_data response_status lift throw ret
                       exn_get member response_value prop].
  simpl. destruct (truthy (get (data r) "error")); reflexivity.
Qed.

(** X9.  When the submission is answered with a status other than 200
    in a response that axios resolves with, or fails without any response
    (the service cannot be reached), what [asyncGenerateLLMsText] throws
    is a [TypeError]: the error of [handleError], or the network error,
    is lost in the method's [catch], which reads the status of a response
    that the caught error does not have. *)
Theorem submission_without_response_throws_TypeError
    url params (w : World) reply s :
  on_post (apiUrl this +:+ "/v1/llmstxt") (with_url params url)
          (prepareHeaders this None) (server _ w)
  = (reply, s) ->
  (exists r, reply = Resolved r /\ status r <> 200)
  \/ (exists m, reply = Rejected (AxiosError m None)) ->
  exists text,
    asyncGenerateLLMsText url params w
    = Some (Rejected (TypeError text), submitted_world w url params s).
Proof.
  intros Hpost Hreply.
  unfold Client.asyncGenerateLLMsText.
  unfold bind at 1. unfold try_catch. unfold bind at 1.
  unfold postRequest, bind at 1, Client.emit at 1, on_server.
  cbn [server trace]. rewrite Hpost.
  destruct Hreply as [(r & -> & Hstatus)|(m & ->)].
  - apply Z.eqb_neq in Hstatus. rewrite Hstatus.
    unfold bind at 1. unfold Client.handleError.
    destruct (existsb _ _); eexists; reflexivity.
  - eexists. reflexivity.
Qed.

(** *** One poll, whatever the answer *)

(** A poll returns a body only for HTTP 200, and what it throws is an
    [Error]. *)
Lemma poll_outcome id (w : World) :
  let headers := prepareHeaders this None in
  let target := apiUrl this +:+ "/v1/llmstxt/" +:+ id in
  let reply := on_get target headers (server _ w) in
  exists o,
    checkGenerateLLMsTextStatus id w
    = Some (o, {| server := snd reply;
                  trace := trace _ w ++ [HttpGet target headers] |})
    /\ match o with
       | Resolved body =>
           exists r, receives (fst reply) r /\ status r = 200 /\ body = data r
       | Rejected e => instanceof_Error e = true
       end.
Proof.
  intros headers target reply.
  unfold Client.checkGenerateLLMsTextStatus. fold headers target.
  unfold bind at 1. unfold try_catch. unfold bind at 1.
  unfold getRequest, try_catch, bind at 1, Client.emit at 1.
  unfold bind at 1, on_server. cbn [server trace]. fold reply.
  assert (Hreceived : forall r, receives (fst reply) r ->
    exists o,
      match
        (if status r =? 200
         then ret (Some (data r))
         else if status r =? 404
              then throw (CodecrawlError "LLMs.txt generation job not found"
                            (Num 404) Undefined)
              else exec! handleError r "check LLMs.txt generation status"
                   in ret None)
          {| server := snd reply;
             trace := trace _ w ++ [HttpGet target headers] |}
      with
      | Some (Rejected e, w') =>
          (fun error : Exn =>
             let! server_error := response_data Server error "error" in
             if truthy server_error
             then
               let! code := response_status Server error in
               let! details := response_data Server error "details" in
               throw (CodecrawlError
                        ("Request failed with status code " +:+ to_string code
                         +:+ ". Error: " +:+ to_string server_error +:+ " "
                         +:+ (if truthy details
                              then " - " +:+ JSON_stringify details
                              else EmptyString))
                        code Undefined)
             else
               let! message := lift (exn_get error "message") in
               throw (CodecrawlError (Error_message message) (Num 500)
                        Undefined)) e w'
      | other => other
      end
      = Some (o, {| server := snd reply;
                    trace := trace _ w ++ [HttpGet target headers] |})
      /\ match o with
         | Resolved None => False
         | Resolved (Some body) =>
             exists r, receives (fst reply) r /\ status r = 200 /\ body = data r
         | Rejected e => instanceof_Error e = true
         end).
  { intros r Hr.
    destruct (status r =? 200) eqn:H200.
    - eexists. split; [reflexivity|]. exists r. apply Z.eqb_eq in H200. auto.
    - destruct (status r =? 404).
      + eexists. split; reflexivity.
      + unfold bind at 1. unfold Client.handleError.
        destruct (existsb _ _); eexists; split; reflexivity. }
  destruct reply as [[response|error] s] eqn:Hreply; cbn [fst snd ret] in *.
  - destruct (Hreceived response (or_introl eq_refl)) as (o & Hrun & Ho).
    rewrite Hrun. destruct o as [[body|]|e]; [|contradiction|];
      eexists; (split; [reflexivity|]); exact Ho.
  - destruct error as [m sc d|m [response|]|m|m|v].
    + eexists. split; reflexivity.
    + cbn [ret].
      destruct (Hreceived response (or_intror (ex_intro _ m eq_refl)))
        as (o & Hrun & Ho).
      rewrite Hrun. destruct o as [[body|]|e]; [|contradiction|];
        eexists; (split; [reflexivity|]); exact Ho.
    + eexists. split; reflexivity.
    + eexists. split; reflexivity.
    + eexists. split; reflexivity.
    + cbv beta iota delta [throw bind response_data response_status lift ret].
      destruct (exn_get (NonError v) "response") as [response|e] eqn:Hresp.
      * destruct (truthy (prop (prop response "data") "error")).
        -- destruct (member response "status") as [code|e] eqn:Hmember.
           ++ eexists. split; reflexivity.
           ++ eexists. split; [reflexivity|].
              destruct response; simpl in Hmember; try discriminate;
                injection Hmember as <-; reflexivity.
        -- destruct (exn_get (NonError v) "message") as [message|e] eqn:Hmsg.
           ++ eexists. split; reflexivity.
           ++ eexists. split; [reflexivity|].
              destruct v; simpl in Hmsg; try discriminate;
                injection Hmsg as <-; reflexivity.
      * eexists. split; [reflexivity|].
        destruct v; simpl in Hresp; try discriminate;
        injection Hresp as <-; reflexivity.
Qed.

(** X10.  A poll that gets a response with a status other than 200
    throws a [CodecrawlError] whose status code is 500, whatever the
    status of the response: the message is 'LLMs.txt generation job not
    found' for 404 and the message of [handleError], which names the
    status, for the others. *)
Theorem failed_poll_carries_status_500 id (w : World) reply s r :
  let headers := prepareHeaders this None in
  let target := apiUrl this +:+ "/v1/llmstxt/" +:+ id in
  on_get target headers (server _ w) = (reply, s) ->
  receives reply r ->
  status r <> 200 ->
  exists message,
    checkGenerateLLMsTextStatus id w
    = Some (Rejected (CodecrawlError message (Num 500) Undefined),
            {| server := s; trace := trace _ w ++ [HttpGet target headers] |})
    /\ (status r = 404 -> message = "LLMs.txt generation job not found")
    /\ (status r <> 404 ->
        includes message "check LLMs.txt generation status"
        /\ includes message (of_Z (status r))).
Proof.
  intros headers target Hreply Hreceives Hstatus.
  unfold Client.checkGenerateLLMsTextStatus. fold headers target.
  unfold bind at 1. unfold try_catch. unfold bind at 1.
  rewrite (getRequest_receives Server on_get _ _ _ _ _ _ Hreply Hreceives).
  apply Z.eqb_neq in Hstatus. rewrite Hstatus.
  destruct (Z.eqb_spec (status r) 404) as [H404|H404].
  - eexists. split; [reflexivity|]. split; [reflexivity|]. contradiction.
  - unfold bind at 1.
    destruct (handleError_run JSON_stringify Server r
                "check LLMs.txt generation status"
                {| server := s; trace := trace _ w ++ [HttpGet target headers] |})
      as (message & details & Hrun & Hshape).
    rewrite Hrun. exists message. split; [reflexivity|].
    split; [contradiction|]. intros _.
    destruct (existsb _ _); destruct Hshape as [_ ->]; split.
    + exists "Failed to ". eexists. reflexivity.
    + exists ("Failed to " +:+ "check LLMs.txt generation status"
              +:+ ". Status code: ").
      eexists. rewrite !append_assoc. reflexivity.
    + exists "Unexpected error occurred while ". eexists. reflexivity.
    + exists ("Unexpected error occurred while "
              +:+ "check LLMs.txt generation status" +:+ ". Status code: ").
      eexists. rewrite !append_assoc. reflexivity.
Qed.

(** X11.  A poll returns a body only when its request got HTTP 200, and
    the body is then the data of that response; in particular the fallback
    response at the end of the method is never returned.  Every call makes
    exactly one request. *)
Theorem poll_returns_only_on_200 id (w w' : World) body :
  checkGenerateLLMsTextStatus id w = Some (Resolved body, w') ->
  let headers := prepareHeaders this None in
  let target := apiUrl this +:+ "/v1/llmstxt/" +:+ id in
  (exists r,
     receives (fst (on_get target headers (server _ w))) r
     /\ status r = 200 /\ body = data r)
  /\ w' = {| server := snd (on_get target headers (server _ w));
             trace := trace _ w ++ [HttpGet target headers] |}.
Proof.
  intros Hpoll headers target.
  destruct (poll_outcome id w) as (o & Hrun & Ho).
  fold headers target in Hrun, Ho. rewrite Hrun in Hpoll.
  injection Hpoll as -> <-. split; [exact Ho | reflexivity].
Qed.

(** *** The loop, round by round *)

(** What the loop throws is an [Error]. *)
Lemma poll_loop_throws_errors jobId : forall fuel (w w' : World) e,
  poll_loop fuel jobId w = Some (Rejected e, w') ->
  instanceof_Error e = true.
Proof.
  induction fuel as [|fuel IH]; intros w w' e Hloop; [discriminate|].
  rewrite poll_loop_step in Hloop.
  destruct (poll_outcome (to_string jobId) w) as (o & Hrun & Ho).
  rewrite Hrun in Hloop. destruct o as [gs|e0].
  - destruct (is_error_response gs); [discriminate|].
    destruct (is_string (get gs "status") "completed"); [discriminate|].
    destruct (is_string (get gs "status") "failed").
    + injection Hloop as <- _. reflexivity.
    + destruct (negb (is_string (get gs "status") "processing"));
        [discriminate|].
      exact (IH _ _ _ Hloop).
  - injection Hloop as <- _. exact Ho.
Qed.

(** The loop makes its requests one after the other with the delay in
    between and none after the last. *)
Lemma poll_loop_trace jobId : forall fuel (w w' : World) o,
  poll_loop fuel jobId w = Some (o, w') ->
  exists n,
    (n < fuel)%nat
    /\ trace _ w'
       = trace _ w
         ++ concat (repeat [HttpGet (apiUrl this +:+ "/v1/llmstxt/"
                                     +:+ to_string jobId)
                                    (prepareHeaders this None);
                            Sleep 2000] n)
         ++ [HttpGet (apiUrl this +:+ "/v1/llmstxt/" +:+ to_string jobId)
                     (prepareHeaders this None)].
Proof.
  induction fuel as [|fuel IH]; intros w w' o Hloop; [discriminate|].
  rewrite poll_loop_step in Hloop.
  destruct (poll_outcome (to_string jobId) w) as (o1 & Hrun & _).
  rewrite Hrun in Hloop.
  assert (Hnow : forall o2, Some (o2,
      {| server := snd (on_get (apiUrl this +:+ "/v1/llmstxt/" +:+ to_string jobId)
                          (prepareHeaders this None) (server _ w));
         trace := trace _ w
                  ++ [HttpGet (apiUrl this +:+ "/v1/llmstxt/" +:+ to_string jobId)
                              (prepareHeaders this None)] |})
      = Some (o, w') ->
    exists n, (n < S fuel)%nat /\ trace _ w'
       = trace _ w
         ++ concat (repeat [HttpGet (apiUrl this +:+ "/v1/llmstxt/"
                                     +:+ to_string jobId)
                                    (prepareHeaders this None);
                            Sleep 2000] n)
         ++ [HttpGet (apiUrl this +:+ "/v1/llmstxt/" +:+ to_string jobId)
                     (prepareHeaders this None)]).
  { intros o2 [= _ <-]. exists 0%nat. split; [lia | reflexivity]. }
  destruct o1 as [gs|e0]; [|exact (Hnow _ Hloop)].
  destruct (is_error_response gs); [exact (Hnow _ Hloop)|].
  destruct (is_string (get gs "status") "completed"); [exact (Hnow _ Hloop)|].
  destruct (is_string (get gs "status") "failed"); [exact (Hnow _ Hloop)|].
  destruct (negb (is_string (get gs "status") "processing"));
    [exact (Hnow _ Hloop)|].
  destruct (IH _ _ _ Hloop) as (n & Hn & Htrace).
  exists (S n). split; [lia|]. rewrite Htrace. cbn [trace repeat concat].
  rewrite <- !app_assoc. reflexivity.
Qed.

(** *** The whole run *)

(** What the submission throws is an [Error]. *)
Lemma submission_throws_errors url params (w w' : World) e :
  asyncGenerateLLMsText url params w = Some (Rejected e, w') ->
  instanceof_Error e = true.
Proof.
  unfold Client.asyncGenerateLLMsText.
  unfold bind at 1. unfold try_catch. unfold bind at 1.
  unfold postRequest, bind at 1, Client.emit at 1, on_server.
  cbn [server trace].
  destruct (on_post _ _ _ _) as [[response|error] s].
  - destruct (status response =? 200); [discriminate|].
    unfold bind at 1. unfold Client.handleError.
    destruct (existsb _ _); intros [= <- _]; reflexivity.
  - cbv beta iota delta [bind response_data response_status lift throw ret].
    destruct (exn_get error "response") as [response|e0] eqn:Hresp.
    + destruct (truthy (prop (prop response "data") "error"));
        (destruct (member response "status") as [code|e1] eqn:Hmember;
         [intros [= <- _]; reflexivity|]);
        intros [= <- _];
        destruct response; simpl in Hmember; try discriminate;
        injection Hmember as <-; reflexivity.
    + intros [= <- _].
      destruct error as [m sc d|m r|m|m|v]; simpl in Hresp; try discriminate.
      destruct v; simpl in Hresp; try discriminate;
        injection Hresp as <-; reflexivity.
Qed.

(** The [catch] of [generateLLMsTxt] on an [Error]. *)
Lemma rethrown_with_500 e :
  instanceof_Error e = true ->
  exists m details,
    exn_get e "message" = Resolved (Str m)
    /\ forall w : World,
         (let! message := lift (exn_get e "message") in
          let! details := response_data Server e "details" in
          throw (CodecrawlError (Error_message message) (Num 500) details)) w
         = Some (@Rejected Object (CodecrawlError m (Num 500) details), w).
Proof.
  intros He. destruct e as [m sc d|m r|m|m|v]; try discriminate He;
    exists m; eexists; (split; [reflexivity|]); intros w; reflexivity.
Qed.

(** X12.  Whatever goes wrong in a run, the error that leaves
    [generateLLMsTxt] is a [CodecrawlError] with the status code 500: the
    status code that an inner failure carried does not reach the caller. *)
Theorem run_failures_carry_status_500 fuel url params (w w' : World) e :
  generateLLMsTxt fuel url params w = Some (Rejected e, w') ->
  exists message details, e = CodecrawlError message (Num 500) details.
Proof.
  unfold Client.generateLLMsTxt, try_catch.
  match goal with |- context [match ?body w with _ => _ end] =>
    destruct (body w) as [[[result|e0] w1]|] eqn:Hbody end;
    try discriminate.
  assert (He0 : instanceof_Error e0 = true).
  { revert Hbody. unfold bind at 1.
    destruct (asyncGenerateLLMsText url params w)
      as [[[response|e1] w2]|] eqn:Hsubmit; try discriminate.
    - destruct (truthy (get response "success") || has response "error");
        [discriminate|].
      destruct (negb (truthy (get response "id"))).
      + intros [= <- _]. reflexivity.
      + unfold bind at 1.
        destruct (poll_loop fuel (get response "id") w2)
          as [[[exit|e2] w3]|] eqn:Hloop; try discriminate.
        intros [= <- _]. exact (poll_loop_throws_errors _ _ _ _ _ Hloop).
    - intros [= <- _]. exact (submission_throws_errors _ _ _ _ _ Hsubmit). }
  destruct (rethrown_with_500 e0 He0) as (m & details & _ & Hthrow).
  rewrite Hthrow. intros [= <- _]. eauto.
Qed.

(** X13.  When a poll finds the job failed in a body that is not an
    error response, [generateLLMsTxt] throws 'LLMs.txt generation failed',
    with the status and the [error] field of the body in the message and
    the status code 500, and polls no more. *)
Theorem failed_job_is_thrown
    fuel url params (w : World) posted s n w2 gs w3 :
  on_post (apiUrl this +:+ "/v1/llmstxt") (with_url params url)
          (prepareHeaders this None) (server _ w)
  = (Resolved posted, s) ->
  starts_polling posted ->
  processing_for (get (data posted) "id") n
    (submitted_world w url params s) w2 ->
  checkGenerateLLMsTextStatus (to_string (get (data posted) "id")) w2
  = Some (Resolved gs, w3) ->
  is_error_response gs = false ->
  is_string (get gs "status") "failed" = true ->
  (n < fuel)%nat ->
  generateLLMsTxt fuel url params w
  = Some (Rejected
            (CodecrawlError
               ("LLMs.txt generation failed. Status code: failed. Error: "
                +:+ to_string (get gs "error"))
               (Num 500) Undefined), w3).
Proof.
  intros Hpost Hstart Hprocessing Hpoll Herror Hfailed Hfuel.
  rewrite (run_after_submission fuel url params w posted s Hpost Hstart).
  unfold try_catch. unfold bind at 1.
  replace fuel with (n + S (fuel - n - 1))%nat by lia.
  rewrite (poll_loop_after_processing _ _ _ _ Hprocessing).
  rewrite poll_loop_step, Hpoll, Herror.
  destruct (get gs "status") as [| |b|z|st|fields]; try discriminate.
  simpl in Hfailed. apply String.eqb_eq in Hfailed. subst st.
  reflexivity.
Qed.

(** X14.  A polled body that is an error response (it has an [error]
    field and no truthy [success]) ends the run at once and is returned
    as it is, whatever status it names: a job reported as failed in such
    a body is returned to the caller, not thrown. *)
Theorem error_response_is_returned
    fuel url params (w : World) posted s n w2 gs w3 :
  on_post (apiUrl this +:+ "/v1/llmstxt") (with_url params url)
          (prepareHeaders this None) (server _ w)
  = (Resolved posted, s) ->
  starts_polling posted ->
  processing_for (get (data posted) "id") n
    (submitted_world w url params s) w2 ->
  checkGenerateLLMsTextStatus (to_string (get (data posted) "id")) w2
  = Some (Resolved gs, w3) ->
  is_error_response gs = true ->
  (n < fuel)%nat ->
  generateLLMsTxt fuel url params w = Some (Resolved gs, w3).
Proof.
  intros Hpost Hstart Hprocessing Hpoll Herror Hfuel.
  rewrite (run_after_submission fuel url params w posted s Hpost Hstart).
  unfold try_catch. unfold bind at 1.
  replace fuel with (n + S (fuel - n - 1))%nat by lia.
  rewrite (poll_loop_after_processing _ _ _ _ Hprocessing).
  rewrite poll_loop_step, Hpoll, Herror. reflexivity.
Qed.

(** X15.  When the submission is answered with HTTP 200 but the body has
    no job id (and neither a truthy [success] nor an [error] field), the
    run throws 'Failed to start LLMs.txt generation. No job ID returned'
    with the status code 500 and makes no poll. *)
Theorem missing_job_id_is_thrown fuel url params (w : World) posted s :
  on_post (apiUrl this +:+ "/v1/llmstxt") (with_url params url)
          (prepareHeaders this None) (server _ w)
  = (Resolved posted, s) ->
  status posted = 200 ->
  truthy (get (data posted) "success") = false ->
  has (data posted) "error" = false ->
  truthy (get (data posted) "id") = false ->
  generateLLMsTxt fuel url params w
  = Some (Rejected
            (CodecrawlError
               "Failed to start LLMs.txt generation. No job ID returned"
               (Num 500) Undefined),
          submitted_world w url params s).
Proof.
  intros Hpost Hstatus Hsuccess Herror Hid.
  destruct (asyncGenerateLLMsText_run JSON_stringify Server on_post this
              url params w) as (o & Hrun & Ho).
  rewrite Hpost in Hrun, Ho. cbn [fst snd] in Hrun, Ho.
  rewrite Hstatus in Ho. simpl in Ho. subst o.
  unfold Client.generateLLMsTxt, try_catch. unfold bind at 1.
  rewrite Hrun, Hsuccess, Herror, Hid. reflexivity.
Qed.

(** X16.  When the body that answers the submission has an [error]
    field, the run returns [{ success: false, error }] with that error and
    makes no poll, also when the body names a job. *)
Theorem submission_error_is_returned fuel url params (w : World) posted s :
  on_post (apiUrl this +:+ "/v1/llmstxt") (with_url params url)
          (prepareHeaders this None) (server _ w)
  = (Resolved posted, s) ->
  status posted = 200 ->
  has (data posted) "error" = true ->
  generateLLMsTxt fuel url params w
  = Some (Resolved (ErrorResponse (get (data posted) "error")),
          submitted_world w url params s).
Proof.
  intros Hpost Hstatus Herror.
  destruct (asyncGenerateLLMsText_run JSON_stringify Server on_post this
              url params w) as (o & Hrun & Ho).
  rewrite Hpost in Hrun, Ho. cbn [fst snd] in Hrun, Ho.
  rewrite Hstatus in Ho. simpl in Ho. subst o.
  unfold Client.generateLLMsTxt, try_catch. unfold bind at 1.
  rewrite Hrun, Herror, orb_true_r. reflexivity.
Qed.

(** X17.  The loop has no deadline: as long as every poll finds the job
    processing the run does not end, however many rounds it is given. *)
Theorem processing_job_is_polled_forever url params (w : World) posted s body :
  on_post (apiUrl this +:+ "/v1/llmstxt") (with_url params url)
          (prepareHeaders this None) (server _ w)
  = (Resolved posted, s) ->
  starts_polling posted ->
  always_answers Server on_get body ->
  is_error_response body = false ->
  is_string (get body "status") "processing" = true ->
  forall fuel, generateLLMsTxt fuel url params w = None.
Proof.
  intros Hpost Hstart Halways Herror Hprocessing fuel.
  rewrite (run_after_submission fuel url params w posted s Hpost Hstart).
  unfold try_catch. unfold bind at 1.
  assert (Hloop : forall fuel (w0 : World),
            poll_loop fuel (get (data posted) "id") w0 = None).
  { clear fuel. induction fuel as [|fuel IH]; intros w0; [reflexivity|].
    rewrite poll_loop_step.
    destruct (Halways (apiUrl this +:+ "/v1/llmstxt/"
                       +:+ to_string (get (data posted) "id"))
                (prepareHeaders this None) (server _ w0)) as [s' Hget].
    rewrite (poll_200 JSON_stringify Server on_get this _ w0 _ _ _ Hget
               (or_introl eq_refl) eq_refl).
    cbn [data]. rewrite Herror.
    destruct (get body "status") as [| |b|z|st|fields]; try discriminate.
    simpl in Hprocessing. apply String.eqb_eq in Hprocessing. subst st.
    simpl. apply IH. }
  rewrite Hloop. reflexivity.
Qed.

(** X18.  When the answer to the submission lets the polling start, [n]
    polls find the job processing and the next finds it completed, the
    run returns the completed body as soon as it has fuel for [n + 1]
    rounds; it has then made the submission and [n + 1] polls of the job,
    with a delay of 2000 ms after each of the first [n]. *)
Theorem completed_job_is_returned
    fuel url params (w : World) posted s n final w' :
  on_post (apiUrl this +:+ "/v1/llmstxt") (with_url params url)
          (prepareHeaders this None) (server _ w)
  = (Resolved posted, s) ->
  starts_polling posted ->
  completes_after JSON_stringify Server on_get this
    (get (data posted) "id") n (submitted_world w url params s) final w' ->
  (n < fuel)%nat ->
  let poll :=
    HttpGet (apiUrl this +:+ "/v1/llmstxt/"
             +:+ to_string (get (data posted) "id"))
            (prepareHeaders this None) in
  generateLLMsTxt fuel url params w = Some (Resolved final, w')
  /\ trace _ w'
     = trace _ w
       ++ [HttpPost (apiUrl this +:+ "/v1/llmstxt") (with_url params url)
                    (prepareHeaders this None)]
       ++ concat (repeat [poll; Sleep 2000] n) ++ [poll].
Proof.
  intros Hpost (Hstatus & Hsuccess & Herror & Hid) Hpolls Hfuel poll. split.
  - exact (generateLLMsTxt_polls_until_completed JSON_stringify Server
             on_post on_get this fuel url params w posted s n final w'
             Hpost Hstatus Hsuccess Herror Hid Hpolls Hfuel).
  - rewrite (completes_after_trace JSON_stringify Server on_get this
               _ _ _ _ _ Hpolls).
    cbn [trace]. rewrite <- !app_assoc. reflexivity.
Qed.

(** X19.  Every run that ends has made the submission first and once;
    after it come only polls of one job, each to the same URL with the
    same headers, separated by delays of 2000 ms, and the run never ends
    on a delay. *)
Theorem run_trace_shape fuel url params (w w' : World) o :
  generateLLMsTxt fuel url params w = Some (o, w') ->
  exists polling,
    trace _ w'
    = trace _ w
      ++ HttpPost (apiUrl this +:+ "/v1/llmstxt") (with_url params url)
                  (prepareHeaders this None)
         :: polling
    /\ (polling = []
        \/ exists id n,
             (n < fuel)%nat
             /\ polling
                = concat (repeat [HttpGet (apiUrl this +:+ "/v1/llmstxt/" +:+ id)
                                          (prepareHeaders this None);
                                  Sleep 2000] n)
                  ++ [HttpGet (apiUrl this +:+ "/v1/llmstxt/" +:+ id)
                              (prepareHeaders this None)]).
Proof.
  intros Hrun.
  destruct (asyncGenerateLLMsText_run JSON_stringify Server on_post this
              url params w) as (o1 & Hsubmit & _).
  set (w1 := {| server := _; trace := _ |}) in Hsubmit.
  assert (Hends : forall e (w2 : World),
    instanceof_Error e = true ->
    (let! message := lift (exn_get e "message") in
     let! details := response_data Server e "details" in
     throw (CodecrawlError (Error_message message) (Num 500) details)) w2
    = Some (o, w') -> w' = w2).
  { intros e w2 He Hthrow.
    destruct (rethrown_with_500 e He) as (m & details & _ & Hrethrown).
    rewrite Hrethrown in Hthrow. injection Hthrow as _ <-. reflexivity. }
  assert (Hnone : w' = w1 -> exists polling,
    trace _ w' = trace _ w ++ HttpPost (apiUrl this +:+ "/v1/llmstxt")
                   (with_url params url) (prepareHeaders this None) :: polling
    /\ (polling = []
        \/ exists id n, (n < fuel)%nat /\ polling
           = concat (repeat [HttpGet (apiUrl this +:+ "/v1/llmstxt/" +:+ id)
                                     (prepareHeaders this None);
                             Sleep 2000] n)
             ++ [HttpGet (apiUrl this +:+ "/v1/llmstxt/" +:+ id)
                         (prepareHeaders this None)])).
  { intros ->. exists []. split; [reflexivity | left; reflexivity]. }
  assert (Hsome : forall jobId w2 o2,
    poll_loop fuel jobId w1 = Some (o2, w2) -> w' = w2 -> exists polling,
    trace _ w' = trace _ w ++ HttpPost (apiUrl this +:+ "/v1/llmstxt")
                   (with_url params url) (prepareHeaders this None) :: polling
    /\ (polling = []
        \/ exists id n, (n < fuel)%nat /\ polling
           = concat (repeat [HttpGet (apiUrl this +:+ "/v1/llmstxt/" +:+ id)
                                     (prepareHeaders this None);
                             Sleep 2000] n)
             ++ [HttpGet (apiUrl this +:+ "/v1/llmstxt/" +:+ id)
                         (prepareHeaders this None)])).
  { intros jobId w2 o2 Hloop ->.
    destruct (poll_loop_trace jobId fuel w1 w2 o2 Hloop) as (n & Hn & Htrace).
    eexists. split.
    - rewrite Htrace. unfold w1. cbn [trace]. rewrite <- app_assoc.
      reflexivity.
    - right. exists (to_string jobId), n. split; [exact Hn | reflexivity]. }
  revert Hrun. unfold Client.generateLLMsTxt, try_catch. unfold bind at 1.
  rewrite Hsubmit. destruct o1 as [response|e1].
  - destruct (truthy (get response "success") || has response "error").
    + intros [= _ <-]. apply Hnone. reflexivity.
    + destruct (negb (truthy (get response "id"))).
      * intros Hthrow. apply Hnone.
        exact (Hends (CodecrawlError
                        "Failed to start LLMs.txt generation. No job ID returned"
                        (Num 500) Undefined) w1 eq_refl Hthrow).
      * unfold bind at 1.
        destruct (poll_loop fuel (get response "id") w1)
          as [[[exit|e2] w2]|] eqn:Hloop; try discriminate.
        -- intros [= _ <-]. exact (Hsome _ _ _ Hloop eq_refl).
        -- intros Hthrow. apply (Hsome _ _ _ Hloop).
           exact (Hends e2 w2 (poll_loop_throws_errors _ _ _ _ _ Hloop) Hthrow).
  - intros Hthrow. apply Hnone.
    exact (Hends e1 w1 (submission_throws_errors _ _ _ _ _ Hsubmit) Hthrow).
Qed.

End Service.

(** *** The theorems on explicit inputs *)

Import Samples.

Lemma refused_submission_carries_status_witness :
  exists w',
    asyncGenerateLLMsText sample_stringify Script script_post sample_app
      repository None (start_of_run submission_refused)
    = Some (Rejected
              (CodecrawlError
                 "Failed to start LLMs.txt generation. Status code: 402. Error: Insufficient credits"
                 (Num 402) Undefined), w').
Proof.
  eexists.
  exact (refused_submission_carries_status sample_stringify Script script_post
           sample_app repository None (start_of_run submission_refused)
           _ _ _ eq_refl).
Defined.

Lemma submission_without_response_throws_TypeError_witness :
  exists text w',
    asyncGenerateLLMsText sample_stringify Script script_post sample_app
      repository None (start_of_run submission_unreachable)
    = Some (Rejected (TypeError text), w').
Proof.
  destruct (submission_without_response_throws_TypeError sample_stringify
              Script script_post sample_app repository None
              (start_of_run submission_unreachable) _ _ eq_refl
              (or_intror (ex_intro _ "Network Error" eq_refl)))
    as (text & Hrun).
  exists text. eexists. exact Hrun.
Defined.

Lemma failed_poll_carries_status_500_witness :
  exists message w',
    run_checkStatus poll_fails
    = Some (Rejected (CodecrawlError message (Num 500) Undefined), w')
    /\ includes message "500".
Proof.
  destruct (failed_poll_carries_status_500 sample_stringify Script script_get
              sample_app "job-123" (start_of_run poll_fails) _ _
              {| status := 500;
                 data := [("success", Bool false); ("error", Str "boom")] |}
              eq_refl (or_intror (ex_intro _ _ eq_refl))
              ltac:(discriminate))
    as (message & Hrun & _ & Hmessage).
  exists message. eexists. split; [exact Hrun|].
  apply Hmessage. discriminate.
Defined.

Lemma poll_returns_only_on_200_witness :
  exists r,
    receives (fst (script_get poll_url poll_headers completes_on_third_poll)) r
    /\ status r = 200 /\ processing = data r.
Proof.
  exact (proj1 (poll_returns_only_on_200 sample_stringify Script script_get
                  sample_app "job-123" (start_of_run completes_on_third_poll)
                  _ processing eq_refl)).
Defined.

Lemma run_failures_carry_status_500_witness :
  exists message details w',
    run_generateLLMsTxt 5 poll_fails
    = Some (Rejected (CodecrawlError message (Num 500) details), w').
Proof.
  destruct (run_generateLLMsTxt 5 poll_fails) as [[[body|e] w']|] eqn:Hrun;
    try (vm_compute in Hrun; discriminate Hrun).
  destruct (run_failures_carry_status_500 sample_stringify Script script_post
              script_get sample_app 5 repository None (start_of_run poll_fails)
              w' e Hrun) as (message & details & ->).
  exists message, details, w'. reflexivity.
Defined.

Lemma failed_job_is_thrown_witness :
  exists w',
    run_generateLLMsTxt 5 fails_on_second_poll
    = Some (Rejected
              (CodecrawlError
                 "LLMs.txt generation failed. Status code: failed. Error: undefined"
                 (Num 500) Undefined), w').
Proof.
  eassert (Hprocessing :
    processing_for sample_stringify Script script_get sample_app
      (Str "job-123") 1
      {| server := fails_on_second_poll;
         trace := [HttpPost (apiUrl sample_app +:+ "/v1/llmstxt")
                            (with_url None repository)
                            (prepareHeaders sample_app None)] |} _).
  { eapply processing_more; [reflexivity | reflexivity | reflexivity |].
    apply processing_done. }
  eexists.
  exact (failed_job_is_thrown sample_stringify Script script_post script_get
           sample_app 5 repository None (start_of_run fails_on_second_poll)
           _ _ 1 _ failed_body _ eq_refl ready_to_poll Hprocessing eq_refl
           eq_refl eq_refl ltac:(lia)).
Defined.

Lemma error_response_is_returned_witness :
  exists w',
    run_generateLLMsTxt 5 rate_limited_on_second_poll
    = Some (Resolved rate_limited, w').
Proof.
  eassert (Hprocessing :
    processing_for sample_stringify Script script_get sample_app
      (Str "job-123") 1
      {| server := rate_limited_on_second_poll;
         trace := [HttpPost (apiUrl sample_app +:+ "/v1/llmstxt")
                            (with_url None repository)
                            (prepareHeaders sample_app None)] |} _).
  { eapply processing_more; [reflexivity | reflexivity | reflexivity |].
    apply processing_done. }
  eexists.
  exact (error_response_is_returned sample_stringify Script script_post
           script_get sample_app 5 repository None
           (start_of_run rate_limited_on_second_poll)
           _ _ 1 _ rate_limited _ eq_refl ready_to_poll Hprocessing eq_refl
           eq_refl ltac:(lia)).
Defined.

Lemma missing_job_id_is_thrown_witness :
  exists w',
    run_generateLLMsTxt 5 submission_without_id
    = Some (Rejected
              (CodecrawlError
                 "Failed to start LLMs.txt generation. No job ID returned"
                 (Num 500) Undefined), w')
    /\ get_replies (server _ w') = [ok completed].
Proof.
  eexists. split.
  - exact (missing_job_id_is_thrown sample_stringify Script script_post
             script_get sample_app 5 repository None
             (start_of_run submission_without_id) _ _
             eq_refl eq_refl eq_refl eq_refl eq_refl).
  - reflexivity.
Defined.

Lemma submission_error_is_returned_witness :
  exists w',
    run_generateLLMsTxt 5 submission_with_error
    = Some (Resolved (ErrorResponse (Str "Invalid URL")), w')
    /\ get_replies (server _ w') = [ok completed].
Proof.
  eexists. split.
  - exact (submission_error_is_returned sample_stringify Script script_post
             script_get sample_app 5 repository None
             (start_of_run submission_with_error) _ _
             eq_refl eq_refl eq_refl).
  - reflexivity.
Defined.

Lemma processing_job_is_polled_forever_witness :
  generateLLMsTxt sample_stringify unit forever_post forever_get sample_app
    1000 repository None {| server := tt; trace := [] |}
  = None.
Proof.
  refine (processing_job_is_polled_forever sample_stringify unit forever_post
            forever_get sample_app repository None
            {| server := tt; trace := [] |} _ _ processing
            eq_refl ready_to_poll _ eq_refl eq_refl 1000%nat).
  intros url headers s. exists s. reflexivity.
Defined.

Lemma completed_job_is_returned_witness :
  exists w',
    run_generateLLMsTxt 3 completes_on_third_poll_bare_id
    = Some (Resolved completed, w')
    /\ List.length (polls (trace _ w')) = 3%nat.
Proof.
  assert (Hpolls :
    completes_after sample_stringify Script script_get sample_app
      (Str "job-123") 2
      {| server := completes_on_third_poll_bare_id;
         trace := [HttpPost (apiUrl sample_app +:+ "/v1/llmstxt")
                            (with_url None repository)
                            (prepareHeaders sample_app None)] |}
      completed
      {| server := {| post_reply := ok [("id", Str "job-123")];
                      get_replies := [] |};
         trace := [HttpPost (apiUrl sample_app +:+ "/v1/llmstxt")
                            (with_url None repository)
                            (prepareHeaders sample_app None);
                   HttpGet poll_url poll_headers; Sleep 2000;
                   HttpGet poll_url poll_headers; Sleep 2000;
                   HttpGet poll_url poll_headers] |}).
  { eapply completes_later; [reflexivity | reflexivity | reflexivity |].
    eapply completes_later; [reflexivity | reflexivity | reflexivity |].
    apply completes_now; reflexivity. }
  destruct (completed_job_is_returned sample_stringify Script script_post
              script_get sample_app 3 repository None
              (start_of_run completes_on_third_poll_bare_id)
              _ _ 2 completed _ eq_refl ready_to_poll Hpolls ltac:(lia))
    as [Hrun _].
  eexists. split; [exact Hrun | reflexivity].
Defined.

Lemma run_trace_shape_witness :
  exists w' polling,
    trace _ w'
    = HttpPost (apiUrl sample_app +:+ "/v1/llmstxt")
               (with_url None repository) (prepareHeaders sample_app None)
      :: polling
    /\ run_generateLLMsTxt 5 fails_on_second_poll
       = Some (Rejected
                 (CodecrawlError
                    "LLMs.txt generation failed. Status code: failed. Error: undefined"
                    (Num 500) Undefined), w').
Proof.
  assert (Hrun : exists w',
    run_generateLLMsTxt 5 fails_on_second_poll
    = Some (Rejected
              (CodecrawlError
                 "LLMs.txt generation failed. Status code: failed. Error: undefined"
                 (Num 500) Undefined), w'))
    by (eexists; vm_compute; reflexivity).
  destruct Hrun as (w' & Hrun).
  destruct (run_trace_shape sample_stringify Script script_post script_get
              sample_app 5 repository None (start_of_run fails_on_second_poll)
              w' _ Hrun) as (polling & Htrace & _).
  exists w', polling. split; [exact Htrace | exact Hrun].
Defined.

End ClientExtra.

